(** * Discord Rich Presence plugin: Spotify URL resolution and presence lifecycle

    A shallow embedding of [main.go]: the artist-name parser, the cache-key
    derivation, the ListenBrainz response scan, the cache-backed resolver and
    the now-playing orchestration, together with the properties the
    specification states about them.

    Conventions of the embedding.
    - A Go [string] is a sequence of bytes: it is modelled by [string]
      (a list of 8-bit characters).  [strings.ToLower] and
      [strings.TrimSpace] are modelled on the ASCII range, where Go works
      byte by byte; bytes from 128 upward are left as they are.
    - [int32] and [int64] values are integers in [Z], with the two's
      complement wrap-around written out ([int32_wrap]).
    - Calls that leave the plugin (host services, the Discord gateway
      connection, the HTTP client, the clock) are recorded, with their
      answers, in a trace of [Event]s; the answers come from a [Host], which
      may look at the whole history of the run. *)

From Stdlib Require Import ZArith NArith List Ascii String Lia Bool.
From stdpp Require Import base option strings gmap.
Import ListNotations.

Local Open Scope string_scope.
Local Open Scope Z_scope.

(** ** Bytes and strings *)

Module Str.

Definition byte_val (c : ascii) : Z := Z.of_N (N_of_ascii c).

Definition byte_of (z : Z) : ascii := ascii_of_N (Z.to_N (z mod 256)).

(** The ASCII branch of [unicode.ToLower]: 'A'..'Z' move to 'a'..'z'. *)
Definition lower_byte (c : ascii) : ascii :=
  let v := byte_val c in
  if (65 <=? v) && (v <=? 90) then byte_of (v + 32) else c.

(** [strings.ToLower] *)
Fixpoint ToLower (s : string) : string :=
  match s with
  | EmptyString => EmptyString
  | String c r => String (lower_byte c) (ToLower r)
  end.

(** The ASCII white space of [unicode.IsSpace]: tab, line feed, vertical
    tab, form feed, carriage return and space. *)
Definition is_space (c : ascii) : bool :=
  let v := byte_val c in
  ((9 <=? v) && (v <=? 13)) || (v =? 32).

Fixpoint trim_left (s : string) : string :=
  match s with
  | EmptyString => EmptyString
  | String c r => if is_space c then trim_left r else s
  end.

(** Drops the trailing white space: a character is kept when something
    that is kept follows it, or when it is not white space itself. *)
Fixpoint trim_right (s : string) : string :=
  match s with
  | EmptyString => EmptyString
  | String c r =>
      match trim_right r with
      | EmptyString => if is_space c then EmptyString else String c EmptyString
      | r' => String c r'
      end
  end.

(** [strings.TrimSpace] *)
Definition TrimSpace (s : string) : string := trim_right (trim_left s).

(** [strings.HasPrefix s p] *)
Fixpoint HasPrefix (s p : string) : bool :=
  match p, s with
  | EmptyString, _ => true
  | String _ _, EmptyString => false
  | String a p', String b s' => if Ascii.eqb a b then HasPrefix s' p' else false
  end.

(** [strings.Index s sep]: the byte offset of the first occurrence of [sep]
    in [s], and [-1] when there is none. *)
Fixpoint Index (s sep : string) : Z :=
  if HasPrefix s sep then 0
  else match s with
       | EmptyString => -1
       | String _ r => let i := Index r sep in if i <? 0 then -1 else i + 1
       end.

(** The slices [s[:i]] and [s[i:]]. *)
Fixpoint slice_to (i : nat) (s : string) : string :=
  match i, s with
  | O, _ => EmptyString
  | S _, EmptyString => EmptyString
  | S j, String c r => String c (slice_to j r)
  end.

Fixpoint slice_from (i : nat) (s : string) : string :=
  match i, s with
  | O, _ => s
  | S _, EmptyString => EmptyString
  | S j, String _ r => slice_from j r
  end.

(** [strings.Join parts sep] *)
Fixpoint Join (parts : list string) (sep : string) : string :=
  match parts with
  | [] => EmptyString
  | [p] => p
  | p :: rest => p ++ sep ++ Join rest sep
  end.

Definition bytes (s : string) : list Z := map byte_val (list_ascii_of_string s).

Definition of_bytes (l : list Z) : string := string_of_list_ascii (map byte_of l).

(** The NUL byte, written ["\x00"] in the source. *)
Definition NUL : string := String (ascii_of_nat 0) EmptyString.


End Str.

(** ** SHA-256 ([crypto/sha256], FIPS 180-4) and [encoding/hex] *)

Module Sha256.

Definition w32 (x : Z) : Z := x mod 2 ^ 32.

Definition add32 (a b : Z) : Z := w32 (a + b).

Definition rotr (n x : Z) : Z :=
  Z.lor (Z.shiftr x n) (w32 (Z.shiftl x (32 - n))).

Definition not32 (x : Z) : Z := Z.lxor x 4294967295.

Definition Ch (x y z : Z) : Z := Z.lxor (Z.land x y) (Z.land (not32 x) z).

Definition Maj (x y z : Z) : Z :=
  Z.lxor (Z.lxor (Z.land x y) (Z.land x z)) (Z.land y z).

Definition Sigma0 (x : Z) : Z := Z.lxor (Z.lxor (rotr 2 x) (rotr 13 x)) (rotr 22 x).
Definition Sigma1 (x : Z) : Z := Z.lxor (Z.lxor (rotr 6 x) (rotr 11 x)) (rotr 25 x).
Definition sigma0 (x : Z) : Z := Z.lxor (Z.lxor (rotr 7 x) (rotr 18 x)) (Z.shiftr x 3).
Definition sigma1 (x : Z) : Z := Z.lxor (Z.lxor (rotr 17 x) (rotr 19 x)) (Z.shiftr x 10).

(** The constants of the standard, from their definition: the first 32
    bits of the fractional parts of the cube roots (for [K]) and of the
    square roots (for [H0]) of the first primes. *)
Definition is_prime (n : Z) : bool :=
  (2 <=? n)
  && forallb (fun d => negb (n mod Z.of_nat d =? 0)) (seq 2 (Z.to_nat n - 2)).

Definition primes (count : nat) : list Z :=
  firstn count (List.filter is_prime (map Z.of_nat (seq 2 310))).

(** The integer cube root, one bit at a time from bit [k - 1] down. *)
Fixpoint cbrt_bits (k : nat) (n r : Z) : Z :=
  match k with
  | O => r
  | S k' =>
      let c := r + 2 ^ Z.of_nat k' in
      cbrt_bits k' n (if c * c * c <=? n then c else r)
  end.

Definition cube_root_fraction (p : Z) : Z := w32 (cbrt_bits 40 (p * 2 ^ 96) 0).

Definition square_root_fraction (p : Z) : Z := w32 (Z.sqrt (p * 2 ^ 64)).

Definition K : list Z := Eval vm_compute in map cube_root_fraction (primes 64).

Definition H0 : list Z := Eval vm_compute in map square_root_fraction (primes 8).

(** The [n] low bytes of [x], most significant first. *)
Definition be_bytes (n : nat) (x : Z) : list Z :=
  map (fun i => Z.shiftr x (8 * Z.of_nat i) mod 256) (rev (seq 0 n)).

(** The message followed by the byte 0x80, zero bytes up to 56 modulo 64,
    and the bit length as a big-endian 64-bit integer. *)
Definition pad (msg : list Z) : list Z :=
  let len := Z.of_nat (length msg) in
  let zeros := Z.to_nat ((55 - len) mod 64) in
  msg ++ [128] ++ repeat 0 zeros ++ be_bytes 8 (8 * len).

Fixpoint be_words (fuel : nat) (l : list Z) : list Z :=
  match fuel, l with
  | S f, a :: b :: c :: d :: r =>
      (Z.shiftl a 24 + Z.shiftl b 16 + Z.shiftl c 8 + d) :: be_words f r
  | _, _ => []
  end.

(** The message schedule: [w] holds W(0)..W(t-1); [n] more words are added. *)
Fixpoint schedule (n : nat) (w : list Z) : list Z :=
  match n with
  | O => w
  | S m =>
      let t := length w in
      let at_ (k : nat) := nth (t - k) w 0 in
      schedule m
        (w ++ [add32 (add32 (sigma1 (at_ 2%nat)) (at_ 7%nat))
                     (add32 (sigma0 (at_ 15%nat)) (at_ 16%nat))])
  end.

Record regs := Regs { ra : Z; rb : Z; rc : Z; rd : Z; re : Z; rf : Z; rg : Z; rh : Z }.

Definition round (r : regs) (kw : Z * Z) : regs :=
  let t1 := add32 (add32 (add32 (rh r) (Sigma1 (re r)))
                         (add32 (Ch (re r) (rf r) (rg r)) (fst kw))) (snd kw) in
  let t2 := add32 (Sigma0 (ra r)) (Maj (ra r) (rb r) (rc r)) in
  Regs (add32 t1 t2) (ra r) (rb r) (rc r) (add32 (rd r) t1) (re r) (rf r) (rg r).

Definition regs_of (h : list Z) : regs :=
  Regs (nth 0 h 0) (nth 1 h 0) (nth 2 h 0) (nth 3 h 0)
       (nth 4 h 0) (nth 5 h 0) (nth 6 h 0) (nth 7 h 0).

Definition block (h : list Z) (blk : list Z) : list Z :=
  let w := schedule 48 (be_words 16 blk) in
  let r := fold_left round (combine K w) (regs_of h) in
  let i := regs_of h in
  [ add32 (ra i) (ra r); add32 (rb i) (rb r); add32 (rc i) (rc r); add32 (rd i) (rd r);
    add32 (re i) (re r); add32 (rf i) (rf r); add32 (rg i) (rg r); add32 (rh i) (rh r) ].

Fixpoint blocks (fuel : nat) (h : list Z) (l : list Z) : list Z :=
  match fuel with
  | O => h
  | S f =>
      match l with
      | [] => h
      | _ => blocks f (block h (firstn 64 l)) (skipn 64 l)
      end
  end.

(** [sha256.Sum256]: the 32 bytes of the digest. *)
Definition Sum256 (msg : list Z) : list Z :=
  let p := pad msg in
  flat_map (be_bytes 4) (blocks (length p) H0 p).

End Sha256.

Module Hex.

Definition digit (v : Z) : ascii :=
  if v <? 10 then Str.byte_of (48 + v) else Str.byte_of (87 + v).

(** [hex.EncodeToString]: two lower-case digits for each byte. *)
Fixpoint EncodeToString (l : list Z) : string :=
  match l with
  | [] => EmptyString
  | b :: r => String (digit (b / 16)) (String (digit (b mod 16)) (EncodeToString r))
  end.

End Hex.

(** ** [net/url]: PathEscape *)

Module Url.

Definition upper_digit (v : Z) : ascii :=
  if v <? 10 then Str.byte_of (48 + v) else Str.byte_of (55 + v).

(** [shouldEscape c encodePathSegment]: letters, digits and [-_.~] are kept;
    of the reserved characters, [/ ; , ?] are escaped and [$ & + : = @]
    are kept; every other byte is escaped. *)
Definition shouldEscape (c : ascii) : bool :=
  let v := Str.byte_val c in
  if ((97 <=? v) && (v <=? 122)) || ((65 <=? v) && (v <=? 90))
     || ((48 <=? v) && (v <=? 57)) then false
  else if existsb (Z.eqb v) [45; 95; 46; 126] then false
  else if existsb (Z.eqb v) [36; 38; 43; 58; 61; 64] then false
  else true.

Fixpoint PathEscape (s : string) : string :=
  match s with
  | EmptyString => EmptyString
  | String c r =>
      if shouldEscape c
      then String "%" (String (upper_digit (Str.byte_val c / 16))
                     (String (upper_digit (Str.byte_val c mod 16)) (PathEscape r)))
      else String c (PathEscape r)
  end.

End Url.

(** ** Search URLs *)

(** [buildSpotifySearchURL] *)
Definition buildSpotifySearchURL (title artist : string) : string :=
  let query := Str.TrimSpace (Str.Join [artist; title] " ") in
  if String.eqb query "" then "https://open.spotify.com/search/"
  else "https://open.spotify.com/search/" ++ Url.PathEscape query.

(** [spotifySearch] *)
Definition spotifySearch (term : string) : string :=
  let term := Str.TrimSpace term in
  if String.eqb term "" then ""
  else "https://open.spotify.com/search/" ++ Url.PathEscape term.

(** ** Cache keys *)

Definition spotifyCacheTTLHit : Z := 30 * 24 * 60 * 60.
Definition spotifyCacheTTLMiss : Z := 4 * 60 * 60.

(** The byte string that [spotifyCacheKey] hands to SHA-256. *)
Definition cacheKeyInput (artist title album : string) : string :=
  Str.ToLower artist ++ Str.NUL ++ Str.ToLower title ++ Str.NUL ++ Str.ToLower album.

(** [spotifyCacheKey]: the namespace tag followed by the first 8 digest
    bytes, [h[:8]], in hexadecimal. *)
Definition spotifyCacheKey (artist title album : string) : string :=
  let h := Sha256.Sum256 (Str.bytes (cacheKeyInput artist title album)) in
  "spotify.url." ++ Hex.EncodeToString (firstn 8 h).

(** ** The artist-name parser *)

(** The first loop of [parsePrimaryArtist]: the separators are tried in the
    order of the slice literal, and the first one that occurs in [lower]
    decides the split. *)
Fixpoint splitFeat (artist lower : string) (seps : list string)
  : option (string * string) :=
  match seps with
  | [] => None
  | sep :: rest =>
      let i := Str.Index lower sep in
      if 0 <=? i
      then Some (Str.TrimSpace (Str.slice_to (Z.to_nat i) artist),
                 Str.TrimSpace (Str.slice_from (Z.to_nat i) artist))
      else splitFeat artist lower rest
  end.

(** The second loop: the co-artist separators, on the original case. *)
Fixpoint splitCoArtist (artist : string) (seps : list string) : option string :=
  match seps with
  | [] => None
  | sep :: rest =>
      let i := Str.Index artist sep in
      if 0 <=? i then Some (Str.TrimSpace (Str.slice_to (Z.to_nat i) artist))
      else splitCoArtist artist rest
  end.

Definition featSeparators : list string := [" feat. "; " ft. "; " featuring "].
Definition coArtistSeparators : list string := [" & "; " / "].

(** [parsePrimaryArtist] *)
Definition parsePrimaryArtist (artist : string) : string * string :=
  let artist := Str.TrimSpace artist in
  if String.eqb artist "" then ("", "")
  else
    let lower := Str.ToLower artist in
    match splitFeat artist lower featSeparators with
    | Some r => r
    | None =>
        match splitCoArtist artist coArtistSeparators with
        | Some p => (p, "")
        | None => (artist, "")
        end
    end.

(** ** [encoding/json]: the part of [json.Unmarshal] the plugin relies on

    A JSON text is first read as a tree ([Json.parse], the grammar of
    RFC 8259: a syntax error anywhere makes [Unmarshal] fail before
    anything is stored), and the tree is then stored into the Go value
    ([decodeResults], [decodeUsers]) by the rules of the package: an object
    key selects the struct field whose tag it equals, letter case ignored;
    unknown keys are skipped; [null] leaves a string or struct as it is and
    empties a slice; a JSON value of another kind than the Go type is an
    [UnmarshalTypeError], which makes the whole call return an error. *)

Module Json.

#[local] Set Warnings "-register-all".

Inductive value : Type :=
  | Null
  | Bool (b : bool)
  | Number (raw : string)
  | Str (s : string)
  | Array (l : list value)
  | Object (l : list (string * value)).

Definition bv : ascii -> Z := Str.byte_val.

Definition is_ws (c : ascii) : bool :=
  existsb (Z.eqb (bv c)) [32; 9; 10; 13].

Fixpoint skip_ws (s : string) : string :=
  match s with
  | String c r => if is_ws c then skip_ws r else s
  | EmptyString => s
  end.

Definition is_digit (c : ascii) : bool := (48 <=? bv c) && (bv c <=? 57).

Definition hex_val (c : ascii) : option Z :=
  let v := bv c in
  if (48 <=? v) && (v <=? 57) then Some (v - 48)
  else if (97 <=? v) && (v <=? 102) then Some (v - 87)
  else if (65 <=? v) && (v <=? 70) then Some (v - 55)
  else None.

(** Four hexadecimal digits, as after a backslash and [u]. *)
Definition getu4 (s : string) : option (Z * string) :=
  match s with
  | String a (String b (String c (String d r))) =>
      match hex_val a, hex_val b, hex_val c, hex_val d with
      | Some x, Some y, Some z, Some w => Some (((x * 16 + y) * 16 + z) * 16 + w, r)
      | _, _, _, _ => None
      end
  | _ => None
  end.

(** [utf8.AppendRune] *)
Definition utf8 (r : Z) : string :=
  Str.of_bytes
    (if r <? 128 then [r]
     else if r <? 2048 then [192 + r / 64; 128 + r mod 64]
     else if r <? 65536 then [224 + r / 4096; 128 + (r / 64) mod 64; 128 + r mod 64]
     else [240 + r / 262144; 128 + (r / 4096) mod 64; 128 + (r / 64) mod 64; 128 + r mod 64]).

Definition is_surrogate (r : Z) : bool := (55296 <=? r) && (r <? 57344).

(** The rune an escape [\uXXXX] stands for, and what is left of the input:
    a high surrogate followed by an escaped low surrogate makes one rune, a
    surrogate on its own is U+FFFD. *)
Definition escaped_rune (r : Z) (rest : string) : Z * string :=
  if is_surrogate r then
    match rest with
    | String b (String u rest') =>
        if (bv b =? 92) && (bv u =? 117) then
          match getu4 rest' with
          | Some (r2, rest'') =>
              if (r <? 56320) && (56320 <=? r2) && (r2 <? 57344)
              then (65536 + (r - 55296) * 1024 + (r2 - 56320), rest'')
              else (65533, rest)
          | None => (65533, rest)
          end
        else (65533, rest)
    | _ => (65533, rest)
    end
  else (r, rest).

Definition simple_escape (c : ascii) : option Z :=
  let v := bv c in
  if existsb (Z.eqb v) [34; 92; 47] then Some v
  else if v =? 98 then Some 8
  else if v =? 102 then Some 12
  else if v =? 110 then Some 10
  else if v =? 114 then Some 13
  else if v =? 116 then Some 9
  else None.

(** The body of a string literal, after its opening quote. *)
Fixpoint parse_string (fuel : nat) (s : string) : option (string * string) :=
  match fuel with
  | O => None
  | S f =>
      match s with
      | EmptyString => None
      | String c r =>
          if bv c =? 34 then Some (EmptyString, r)
          else if bv c =? 92 then
            match r with
            | EmptyString => None
            | String e r' =>
                if bv e =? 117 then
                  match getu4 r' with
                  | Some (u, r'') =>
                      let '(rune, rest) := escaped_rune u r'' in
                      match parse_string f rest with
                      | Some (t, out) => Some (utf8 rune ++ t, out)
                      | None => None
                      end
                  | None => None
                  end
                else
                  match simple_escape e with
                  | Some v =>
                      match parse_string f r' with
                      | Some (t, out) => Some (String (Str.byte_of v) t, out)
                      | None => None
                      end
                  | None => None
                  end
            end
          else if bv c <? 32 then None
          else
            match parse_string f r with
            | Some (t, out) => Some (String c t, out)
            | None => None
            end
      end
  end.

Fixpoint digits (s : string) : string * string :=
  match s with
  | String c r =>
      if is_digit c then let '(d, out) := digits r in (String c d, out)
      else (EmptyString, s)
  | EmptyString => (EmptyString, s)
  end.

Definition starts_with (v : Z) (s : string) : option string :=
  match s with
  | String c r => if bv c =? v then Some r else None
  | EmptyString => None
  end.

(** A number: an optional minus sign, an integer part without a leading
    zero, an optional fraction and an optional exponent. *)
Definition parse_number (s : string) : option (string * string) :=
  let '(sign, s1) := match starts_with 45 s with
                     | Some r => ("-", r)
                     | None => (EmptyString, s)
                     end in
  let '(int, s2) := digits s1 in
  match int with
  | EmptyString => None
  | String d more =>
      if (bv d =? 48) && negb (String.eqb more EmptyString) then None
      else
        let frac :=
          match starts_with 46 s2 with
          | Some r =>
              let '(fd, out) := digits r in
              if String.eqb fd EmptyString then None else Some ("." ++ fd, out)
          | None => Some (EmptyString, s2)
          end in
        match frac with
        | None => None
        | Some (ftxt, s3) =>
            let mark := match s3 with
                        | String c r =>
                            if (bv c =? 101) || (bv c =? 69)
                            then Some (String c EmptyString, r) else None
                        | EmptyString => None
                        end in
            match mark with
            | None => Some (sign ++ int ++ ftxt, s3)
            | Some (etxt, s4) =>
                let '(esign, s5) :=
                  match s4 with
                  | String c r =>
                      if (bv c =? 43) || (bv c =? 45)
                      then (String c EmptyString, r) else (EmptyString, s4)
                  | EmptyString => (EmptyString, s4)
                  end in
                let '(ed, out) := digits s5 in
                if String.eqb ed EmptyString then None
                else Some (sign ++ int ++ ftxt ++ etxt ++ esign ++ ed, out)
            end
        end
  end.

Definition literal (word : string) (v : value) (s : string) : option (value * string) :=
  if Str.HasPrefix s word
  then Some (v, Str.slice_from (String.length word) s)
  else None.

(** Values, array elements and object members.  [fuel] bounds the number of
    nested calls; [parse] gives enough of it for any text of that length
    (the package itself refuses texts nested deeper than 10000). *)
Fixpoint parse_value (fuel : nat) (s : string) : option (value * string) :=
  match fuel with
  | O => None
  | S f =>
      match skip_ws s with
      | EmptyString => None
      | String c r =>
          let v := bv c in
          if v =? 110 then literal "null" Null (String c r)
          else if v =? 116 then literal "true" (Bool true) (String c r)
          else if v =? 102 then literal "false" (Bool false) (String c r)
          else if v =? 34 then
            match parse_string (S (String.length r)) r with
            | Some (t, out) => Some (Str t, out)
            | None => None
            end
          else if v =? 91 then
            match starts_with 93 (skip_ws r) with
            | Some out => Some (Array [], out)
            | None =>
                match parse_elems f r with
                | Some (l, out) => Some (Array l, out)
                | None => None
                end
            end
          else if v =? 123 then
            match starts_with 125 (skip_ws r) with
            | Some out => Some (Object [], out)
            | None =>
                match parse_members f r with
                | Some (l, out) => Some (Object l, out)
                | None => None
                end
            end
          else
            match parse_number (String c r) with
            | Some (t, out) => Some (Number t, out)
            | None => None
            end
      end
  end
with parse_elems (fuel : nat) (s : string) : option (list value * string) :=
  match fuel with
  | O => None
  | S f =>
      match parse_value f s with
      | None => None
      | Some (x, r) =>
          match skip_ws r with
          | String c r' =>
              if bv c =? 44 then
                match parse_elems f r' with
                | Some (l, out) => Some (x :: l, out)
                | None => None
                end
              else if bv c =? 93 then Some ([x], r')
              else None
          | EmptyString => None
          end
      end
  end
with parse_members (fuel : nat) (s : string)
  : option (list (string * value) * string) :=
  match fuel with
  | O => None
  | S f =>
      match starts_with 34 (skip_ws s) with
      | None => None
      | Some r0 =>
          match parse_string (S (String.length r0)) r0 with
          | None => None
          | Some (k, r1) =>
              match starts_with 58 (skip_ws r1) with
              | None => None
              | Some r2 =>
                  match parse_value f r2 with
                  | None => None
                  | Some (x, r3) =>
                      match skip_ws r3 with
                      | String c r' =>
                          if bv c =? 44 then
                            match parse_members f r' with
                            | Some (l, out) => Some ((k, x) :: l, out)
                            | None => None
                            end
                          else if bv c =? 125 then Some ([(k, x)], r')
                          else None
                      | EmptyString => None
                      end
                  end
              end
          end
      end
  end.

(** A whole text: one value, white space around it, nothing else. *)
Definition parse (s : string) : option value :=
  match parse_value (2 * String.length s + 4) s with
  | Some (v, r) => if String.eqb (skip_ws r) EmptyString then Some v else None
  | None => None
  end.

(** A key selects a field when it equals the field's tag, letter case
    ignored. *)
Definition key_is (tag key : string) : bool :=
  String.eqb (Str.ToLower key) (Str.ToLower tag).

(** Storing into a [string]: [null] has no effect. *)
Definition store_string (old : string) (v : value) : option string :=
  match v with
  | Str s => Some s
  | Null => Some old
  | _ => None
  end.

(** Storing into a [[]string]: the slice is emptied and the elements are
    appended; [null] as the whole value gives the nil slice. *)
Fixpoint store_strings (l : list value) : option (list string) :=
  match l with
  | [] => Some []
  | x :: r =>
      match store_string EmptyString x, store_strings r with
      | Some s, Some ss => Some (s :: ss)
      | _, _ => None
      end
  end.

Definition store_string_slice (v : value) : option (list string) :=
  match v with
  | Null => Some []
  | Array l => store_strings l
  | _ => None
  end.

End Json.

(** ** Fixed-width integers *)

Definition int32_wrap (x : Z) : Z := (x + 2 ^ 31) mod 2 ^ 32 - 2 ^ 31.
Definition int64_wrap (x : Z) : Z := (x + 2 ^ 63) mod 2 ^ 64 - 2 ^ 63.


(** ** [strconv.Quote], the verb [%q] of [fmt]

    Printable ASCII is copied, the quote and the backslash get a backslash,
    control characters get their letter or [\xNN].  Bytes from 128 upward
    are copied, as Go does for printable runes in valid UTF-8. *)

Module Strconv.

Definition dquote : string := String (Str.byte_of 34) EmptyString.
Definition backslash : string := String (Str.byte_of 92) EmptyString.

Definition escape_byte (c : ascii) : string :=
  let v := Str.byte_val c in
  if (v =? 34) || (v =? 92) then backslash ++ String c EmptyString
  else if (32 <=? v) && negb (v =? 127) then String c EmptyString
  else if v =? 7 then backslash ++ "a"
  else if v =? 8 then backslash ++ "b"
  else if v =? 12 then backslash ++ "f"
  else if v =? 10 then backslash ++ "n"
  else if v =? 13 then backslash ++ "r"
  else if v =? 9 then backslash ++ "t"
  else if v =? 11 then backslash ++ "v"
  else backslash ++ "x"
       ++ String (Hex.digit (v / 16)) (String (Hex.digit (v mod 16)) EmptyString).

Fixpoint escape (s : string) : string :=
  match s with
  | EmptyString => EmptyString
  | String c r => escape_byte c ++ escape r
  end.

Definition Quote (s : string) : string := dquote ++ escape s ++ dquote.

(** [s] between two quote characters, with nothing escaped. *)
Definition quoted (s : string) : string := dquote ++ s ++ dquote.

End Strconv.

Definition q : string -> string := Strconv.quoted.

(** ** Data of the plugin and of the host interface *)

(** Configuration keys *)
Definition clientIDKey : string := "clientid".
Definition usersKey : string := "users".
Definition activityNameKey : string := "activityname".
Definition navLogoOverlayKey : string := "navlogooverlay".

Definition navidromeLogoURL : string :=
  "https://cdn.jsdelivr.net/gh/homarr-labs/dashboard-icons/webp/navidrome.webp".

(** Activity name display options *)
Definition activityNameDefault : string := "Default".
Definition activityNameTrack : string := "Track".
Definition activityNameArtist : string := "Artist".
Definition activityNameAlbum : string := "Album".

(** Modelled from the spec: the payload tag of the clear callback is a
    constant declared next to the gateway code, outside [main.go]; the
    specification names it the clear-activity tag. *)
Definition payloadClearActivity : string := "clear-activity".

(** A Go [error] is its message; [None] is [nil]. *)
Definition error : Type := string.

(** The sentinel errors of the scrobbler capability that [NowPlaying]
    wraps with [%w]. *)
Inductive ScrobblerError : Type :=
  | ScrobblerErrorNotAuthorized
  | ScrobblerErrorRetryLater
  | ScrobblerErrorUnrecoverable.

(** An error built by [fmt.Errorf("%w: ...", sentinel, ...)]: the wrapped
    sentinel and the text after it. *)
Record wrapped_error : Type := Wrap { err_kind : ScrobblerError; err_text : string }.

Inductive LogLevel : Type := LogDebug | LogInfo | LogWarn | LogError.

(** An argument of a [fmt.Sprintf] call. *)
Inductive Arg : Type :=
  | ArgS (s : string)
  | ArgZ (z : Z)
  | ArgB (b : bool)
  | ArgJSONError.  (* the error of a failed [json.Unmarshal]; its text is not modelled *)

Record userToken : Type := UserToken { ut_Username : string; ut_Token : string }.

Record listenBrainzResult : Type := LBResult { SpotifyTrackIDs : list string }.

Record ArtistRef : Type := MkArtistRef { ar_ID : string; ar_Name : string }.

(** [scrobbler.TrackInfo], the fields the plugin reads.  [Duration] is the
    length of the track in whole seconds: the source reads the field
    through the conversions [int32(...)] and [int64(...)]. *)
Record TrackInfo : Type := MkTrackInfo {
  ti_ID : string;
  ti_Title : string;
  ti_Album : string;
  ti_Artist : string;
  ti_Artists : list ArtistRef;
  ti_Duration : Z;
  ti_MBZRecordingID : string }.

Record NowPlayingRequest : Type := MkNowPlayingRequest {
  np_Username : string;
  np_Track : TrackInfo;
  np_Position : Z }.

Record IsAuthorizedRequest : Type := MkIsAuthorizedRequest { ia_Username : string }.

Record activityTimestamps : Type := MkTimestamps { ts_Start : Z; ts_End : Z }.

Record activityAssets : Type := MkAssets {
  as_LargeImage : string;
  as_LargeText : string;
  as_LargeURL : string;
  as_SmallImage : string;
  as_SmallText : string }.

Record activity : Type := MkActivity {
  ac_Application : string;
  ac_Name : string;
  ac_Type : Z;
  ac_Details : string;
  ac_DetailsURL : string;
  ac_State : string;
  ac_StateURL : string;
  ac_StatusDisplayType : option Z;
  ac_Timestamps : activityTimestamps;
  ac_Assets : activityAssets }.

Record HTTPRequest : Type := MkHTTPRequest {
  rq_Method : string;
  rq_URL : string;
  rq_Headers : list (string * string);
  rq_Body : string }.

(** ** Calls that leave the plugin

    One constructor for each call, with its arguments and its answer. *)
Inductive Event : Type :=
  | EvLog (level : LogLevel) (format : string) (args : list Arg)
  | EvGetConfig (key value : string) (ok : bool)
  | EvCacheGetString (key value : string) (found : bool) (err : option error)
  | EvCacheSetString (key value : string) (ttl : Z) (err : option error)
  | EvHTTPSend (req : HTTPRequest) (status : Z) (body : string)
  | EvConnect (username token : string) (err : option error)
  | EvSendActivity (clientID username token : string) (a : activity) (err : option error)
  | EvGetImageURL (username trackID url : string)
  | EvNow (unix : Z)
  | EvCancelSchedule (scheduleID : string) (err : option error)
  | EvScheduleOneTime (delay : Z) (payload scheduleID handle : string) (err : option error).

Definition History : Type := list Event.

(** The other side of the calls.  Each answer may depend on everything that
    happened before, so a cache, a scheduler or a gateway with any internal
    state is an instance. *)
Record Host : Type := MkHost {
  pdk_GetConfig : History -> string -> string * bool;
  host_CacheGetString : History -> string -> string * bool * option error;
  host_CacheSetString : History -> string -> string -> Z -> option error;
  pdk_Send : History -> HTTPRequest -> Z * string;
  rpc_connect : History -> string -> string -> option error;
  rpc_sendActivity : History -> string -> string -> string -> activity -> option error;
  rpc_getImageURL : History -> string -> string -> string;
  time_Now : History -> Z;
  host_SchedulerCancelSchedule : History -> string -> option error;
  host_SchedulerScheduleOneTime : History -> Z -> string -> string -> string * option error }.

(** A computation reads the history and extends it. *)
Definition M (A : Type) : Type := History -> A * History.

Definition ret {A : Type} (a : A) : M A := fun h => (a, h).

Definition bind {A B : Type} (m : M A) (k : A -> M B) : M B :=
  fun h => let '(a, h') := m h in k a h'.

Declare Scope prog_scope.
Delimit Scope prog_scope with prog.
Notation "x <- m ; k" := (bind m (fun x => k))
  (at level 20, m at level 100, k at level 200, only parsing) : prog_scope.
Notation "m ;; k" := (bind m (fun _ => k))
  (at level 100, k at level 200, right associativity, only parsing) : prog_scope.

(** A call: ask the host, record the call with its answer. *)
Definition call {A : Type} (answer : History -> A) (ev : A -> Event) : M A :=
  fun h => let a := answer h in (a, (h ++ [ev a])%list).

(** What a run appends to the history it starts from. *)
Definition run {A : Type} (m : M A) : A * History := m [].

(** ** [json.Unmarshal] into the two types of the plugin *)

(** The members of one object, stored into a [listenBrainzResult] whose
    only field holds [ids] so far. *)
Fixpoint storeResultFields (ids : list string) (members : list (string * Json.value))
  : option (list string) :=
  match members with
  | [] => Some ids
  | (k, v) :: rest =>
      if Json.key_is "spotify_track_ids" k then
        match Json.store_string_slice v with
        | Some ids' => storeResultFields ids' rest
        | None => None
        end
      else storeResultFields ids rest
  end.

Definition storeResult (v : Json.value) : option listenBrainzResult :=
  match v with
  | Json.Null => Some (LBResult [])
  | Json.Object members => option_map LBResult (storeResultFields [] members)
  | _ => None
  end.

Fixpoint storeUserFields (u : userToken) (members : list (string * Json.value))
  : option userToken :=
  match members with
  | [] => Some u
  | (k, v) :: rest =>
      if Json.key_is "username" k then
        match Json.store_string (ut_Username u) v with
        | Some s => storeUserFields (UserToken s (ut_Token u)) rest
        | None => None
        end
      else if Json.key_is "token" k then
        match Json.store_string (ut_Token u) v with
        | Some s => storeUserFields (UserToken (ut_Username u) s) rest
        | None => None
        end
      else storeUserFields u rest
  end.

Definition storeUser (v : Json.value) : option userToken :=
  match v with
  | Json.Null => Some (UserToken "" "")
  | Json.Object members => storeUserFields (UserToken "" "") members
  | _ => None
  end.

Fixpoint storeAll {A : Type} (f : Json.value -> option A) (l : list Json.value)
  : option (list A) :=
  match l with
  | [] => Some []
  | x :: r =>
      match f x, storeAll f r with
      | Some a, Some rest => Some (a :: rest)
      | _, _ => None
      end
  end.

(** [json.Unmarshal(data, &slice)]: [None] is a non-nil error. *)
Definition unmarshalSlice {A : Type} (f : Json.value -> option A) (data : string)
  : option (list A) :=
  match Json.parse data with
  | Some Json.Null => Some []
  | Some (Json.Array l) => storeAll f l
  | _ => None
  end.

Definition unmarshalResults : string -> option (list listenBrainzResult) :=
  unmarshalSlice storeResult.

Definition unmarshalUsers : string -> option (list userToken) :=
  unmarshalSlice storeUser.

(** ** The ListenBrainz response scan *)

(** The inner loop of [parseSpotifyID]: the first non-empty id of one
    result, if it has one. *)
Fixpoint firstID (ids : list string) : option string :=
  match ids with
  | [] => None
  | id :: rest => if negb (String.eqb id "") then Some id else firstID rest
  end.

(** The outer loop. *)
Fixpoint scanResults (results : list listenBrainzResult) : string :=
  match results with
  | [] => ""
  | r :: rest =>
      match firstID (SpotifyTrackIDs r) with
      | Some id => id
      | None => scanResults rest
      end
  end.

(** [parseSpotifyID] *)
Definition parseSpotifyID (body : string) : string :=
  match unmarshalResults body with
  | None => ""
  | Some results => scanResults results
  end.

(** ** The plugin, run against a host *)

Section Plugin.

Variable host : Host.

Local Open Scope prog_scope.

(** [pdk.Log(level, fmt.Sprintf(format, args...))]; the message is kept as
    the format and its arguments. *)
Definition Log (level : LogLevel) (format : string) (args : list Arg) : M unit :=
  call (fun _ => tt) (fun _ => EvLog level format args).

Definition GetConfig (key : string) : M (string * bool) :=
  call (fun h => pdk_GetConfig host h key) (fun r => EvGetConfig key (fst r) (snd r)).

Definition CacheGetString (key : string) : M (string * bool * option error) :=
  call (fun h => host_CacheGetString host h key)
       (fun r => EvCacheGetString key (fst (fst r)) (snd (fst r)) (snd r)).

Definition CacheSetString (key value : string) (ttl : Z) : M (option error) :=
  call (fun h => host_CacheSetString host h key value ttl)
       (fun r => EvCacheSetString key value ttl r).

(** [req.Send()]: the status and the body of the response. *)
Definition Send (req : HTTPRequest) : M (Z * string) :=
  call (fun h => pdk_Send host h req) (fun r => EvHTTPSend req (fst r) (snd r)).

Definition connect (username token : string) : M (option error) :=
  call (fun h => rpc_connect host h username token)
       (fun r => EvConnect username token r).

Definition sendActivity (clientID username token : string) (a : activity)
  : M (option error) :=
  call (fun h => rpc_sendActivity host h clientID username token a)
       (fun r => EvSendActivity clientID username token a r).

Definition getImageURL (username trackID : string) : M string :=
  call (fun h => rpc_getImageURL host h username trackID)
       (fun r => EvGetImageURL username trackID r).

Definition Now : M Z := call (fun h => time_Now host h) EvNow.

Definition SchedulerCancelSchedule (scheduleID : string) : M (option error) :=
  call (fun h => host_SchedulerCancelSchedule host h scheduleID)
       (fun r => EvCancelSchedule scheduleID r).

Definition SchedulerScheduleOneTime (delay : Z) (payload scheduleID : string)
  : M (string * option error) :=
  call (fun h => host_SchedulerScheduleOneTime host h delay payload scheduleID)
       (fun r => EvScheduleOneTime delay payload scheduleID (fst r) (snd r)).

Definition mbidURL : string :=
  "https://labs.api.listenbrainz.org/spotify-id-from-mbid/json".
Definition metadataURL : string :=
  "https://labs.api.listenbrainz.org/spotify-id-from-metadata/json".

Definition jsonPost (url body : string) : HTTPRequest :=
  MkHTTPRequest "POST" url [("Content-Type", "application/json")] body.

Definition mbidRequest (mbid : string) : HTTPRequest :=
  jsonPost mbidURL ("[{" ++ q "recording_mbid" ++ ":" ++ q mbid ++ "}]").

Definition metadataPayload (artist title album : string) : string :=
  "[{" ++ q "artist_name" ++ ":" ++ Strconv.Quote artist ++ ","
       ++ q "track_name" ++ ":" ++ Strconv.Quote title ++ ","
       ++ q "release_name" ++ ":" ++ Strconv.Quote album ++ "}]".

Definition metadataRequest (artist title album : string) : HTTPRequest :=
  jsonPost metadataURL (metadataPayload artist title album).

Definition status_ok (status : Z) : bool := negb ((status <? 200) || (300 <=? status)).

(** [trySpotifyFromMBID] *)
Definition trySpotifyFromMBID (mbid : string) : M string :=
  resp <- Send (mbidRequest mbid) ;
  let '(status, body) := resp in
  if negb (status_ok status) then
    Log LogInfo "ListenBrainz MBID lookup failed: HTTP %d, body=%s" [ArgZ status; ArgS body] ;;
    ret ""
  else
    let id := parseSpotifyID body in
    (if String.eqb id ""
     then Log LogInfo
            "ListenBrainz MBID lookup returned no spotify_track_id for mbid=%s, body=%s"
            [ArgS mbid; ArgS body]
     else ret tt) ;;
    ret id.

(** [trySpotifyFromMetadata] *)
Definition trySpotifyFromMetadata (artist title album : string) : M string :=
  let payload := metadataPayload artist title album in
  Log LogInfo "ListenBrainz metadata request: %s" [ArgS payload] ;;
  resp <- Send (jsonPost metadataURL payload) ;
  let '(status, body) := resp in
  if negb (status_ok status) then
    Log LogInfo "ListenBrainz metadata lookup failed: HTTP %d, body=%s"
        [ArgZ status; ArgS body] ;;
    ret ""
  else
    Log LogInfo "ListenBrainz metadata response: HTTP %d, body=%s"
        [ArgZ status; ArgS body] ;;
    let id := parseSpotifyID body in
    (if String.eqb id ""
     then Log LogInfo "ListenBrainz metadata returned no spotify_track_id for %q - %q"
            [ArgS artist; ArgS title]
     else ret tt) ;;
    ret id.

(** The primary artist of a track, as [resolveSpotifyURL] computes it: the
    parsed artist string, or the first structured artist when that is
    empty. *)
Definition primaryArtist (track : TrackInfo) : string :=
  let primary := fst (parsePrimaryArtist (ti_Artist track)) in
  match ti_Artists track with
  | first :: _ => if String.eqb primary "" then ar_Name first else primary
  | [] => primary
  end.

Definition trackURL (trackID : string) : string :=
  "https://open.spotify.com/track/" ++ trackID.

(** [resolveSpotifyURL] returns early from several places; the code that
    follows each of these places is a computation of its own here:
    [searchFallback] is step 3, [metadataLookup] is step 2 followed by
    step 3, and [resolveMiss] is everything after the cache lookup. *)

(** 3. Fallback to search URL *)
Definition searchFallback (track : TrackInfo) : M string :=
  let primary := primaryArtist track in
  let cacheKey := spotifyCacheKey primary (ti_Title track) (ti_Album track) in
  let searchURL := buildSpotifySearchURL (ti_Title track) (ti_Artist track) in
  CacheSetString cacheKey searchURL spotifyCacheTTLMiss ;;
  Log LogInfo "Spotify resolution missed, falling back to search URL for %q - %q: %s"
      [ArgS primary; ArgS (ti_Title track); ArgS searchURL] ;;
  ret searchURL.

(** 2. Try metadata lookup *)
Definition metadataLookup (track : TrackInfo) : M string :=
  let primary := primaryArtist track in
  let cacheKey := spotifyCacheKey primary (ti_Title track) (ti_Album track) in
  if negb (String.eqb primary "") && negb (String.eqb (ti_Title track) "") then
    trackID <- trySpotifyFromMetadata primary (ti_Title track) (ti_Album track) ;
    if negb (String.eqb trackID "") then
      let directURL := trackURL trackID in
      CacheSetString cacheKey directURL spotifyCacheTTLHit ;;
      Log LogInfo "Resolved Spotify via metadata for %q - %q: %s"
          [ArgS primary; ArgS (ti_Title track); ArgS directURL] ;;
      ret directURL
    else searchFallback track
  else searchFallback track.

Definition resolveMiss (track : TrackInfo) : M string :=
  let primary := primaryArtist track in
  let cacheKey := spotifyCacheKey primary (ti_Title track) (ti_Album track) in
  Log LogInfo "Resolving Spotify URL for: artist=%q title=%q album=%q mbid=%q"
      [ArgS primary; ArgS (ti_Title track); ArgS (ti_Album track);
       ArgS (ti_MBZRecordingID track)] ;;
  (* 1. Try MBID lookup (most accurate) *)
  if negb (String.eqb (ti_MBZRecordingID track) "") then
    trackID <- trySpotifyFromMBID (ti_MBZRecordingID track) ;
    if negb (String.eqb trackID "") then
      let directURL := trackURL trackID in
      CacheSetString cacheKey directURL spotifyCacheTTLHit ;;
      Log LogInfo "Resolved Spotify via MBID for %q: %s"
          [ArgS (ti_Title track); ArgS directURL] ;;
      ret directURL
    else
      Log LogInfo "MBID lookup did not return a Spotify ID, trying metadata…" [] ;;
      metadataLookup track
  else
    Log LogInfo "No MBZRecordingID available, skipping MBID lookup" [] ;;
    metadataLookup track.

(** The condition of the cache-hit branch: [err == nil && exists]. *)
Definition cacheHit (got : string * bool * option error) : bool :=
  (if snd got is None then true else false) && snd (fst got).

(** [resolveSpotifyURL] *)
Definition resolveSpotifyURL (track : TrackInfo) : M string :=
  let primary := primaryArtist track in
  let cacheKey := spotifyCacheKey primary (ti_Title track) (ti_Album track) in
  got <- CacheGetString cacheKey ;
  if cacheHit got then
    let cached := fst (fst got) in
    Log LogInfo "Spotify URL cache hit for %q - %q → %s"
        [ArgS primary; ArgS (ti_Title track); ArgS cached] ;;
    ret cached
  else resolveMiss track.

(** The users map of [getConfig]: later entries replace earlier ones with
    the same name; entries with an empty name or token are left out. *)
Definition buildUsers (userTokens : list userToken) : gmap string string :=
  fold_left
    (fun users ut =>
       if negb (String.eqb (ut_Username ut) "") && negb (String.eqb (ut_Token ut) "")
       then <[ut_Username ut := ut_Token ut]> users
       else users)
    userTokens ∅.

(** [getConfig].  A nil map is the empty map: the callers only look names
    up in it. *)
Definition getConfig : M (string * gmap string string * option error) :=
  got <- GetConfig clientIDKey ;
  let '(clientID, ok) := got in
  if negb ok || String.eqb clientID "" then
    Log LogWarn "missing ClientID in configuration" [] ;;
    ret ("", ∅, None)
  else
    (* Get the users array from config *)
    got <- GetConfig usersKey ;
    let '(usersJSON, ok) := got in
    if negb ok || String.eqb usersJSON "" then
      Log LogWarn "no users configured" [] ;;
      ret (clientID, ∅, None)
    else
      (* Parse the JSON array *)
      match unmarshalUsers usersJSON with
      | None =>
          Log LogError "failed to parse users config: %v" [ArgJSONError] ;;
          ret (clientID, ∅, None)
      | Some userTokens =>
          if (length userTokens =? 0)%nat then
            Log LogWarn "no users configured" [] ;;
            ret (clientID, ∅, None)
          else
            (* Build the users map *)
            let users := buildUsers userTokens in
            if (size users =? 0)%nat then
              Log LogWarn "no valid users configured" [] ;;
              ret (clientID, ∅, None)
            else ret (clientID, users, None)
      end.

(** [IsAuthorized] *)
Definition IsAuthorized (input : IsAuthorizedRequest) : M (bool * option error) :=
  cfg <- getConfig ;
  let '(_, users, err) := cfg in
  match err with
  | Some e => ret (false, Some ("failed to check user authorization: " ++ e))
  | None =>
      let authorized := bool_decide (is_Some (users !! ia_Username input)) in
      Log LogInfo "IsAuthorized for user %s: %v" [ArgS (ia_Username input); ArgB authorized] ;;
      ret (authorized, None)
  end.

(** The part of [NowPlaying] between cancelling the old schedule and
    sending: the timestamps, the activity name, the overlay and the links,
    in the order in which the source evaluates them, and the [activity]
    literal that is handed to [rpc.sendActivity]. *)
Definition buildActivity (clientID : string) (input : NowPlayingRequest) : M activity :=
  let track := np_Track input in
  (* Calculate timestamps *)
  now <- Now ;
  let startTime := int64_wrap (int64_wrap (now - np_Position input) * 1000) in
  let endTime := int64_wrap (startTime + int64_wrap (ti_Duration track * 1000)) in
  (* Resolve the activity name based on configuration *)
  opt <- GetConfig activityNameKey ;
  let activityNameOption := fst opt in
  let activityName :=
    if String.eqb activityNameOption activityNameTrack then ti_Title track
    else if String.eqb activityNameOption activityNameAlbum then ti_Album track
    else if String.eqb activityNameOption activityNameArtist then ti_Artist track
    else "Navidrome" in
  (* Navidrome logo overlay: shown by default; disabled only when explicitly
     set to false *)
  opt <- GetConfig navLogoOverlayKey ;
  let navLogoOption := fst opt in
  let smallImage := if negb (String.eqb navLogoOption "false") then navidromeLogoURL else "" in
  let smallText := if negb (String.eqb navLogoOption "false") then "Navidrome" else "" in
  let detailsURL := spotifySearch (ti_Title track) in
  let stateURL := spotifySearch (ti_Artist track) in
  largeImage <- getImageURL (np_Username input) (ti_ID track) ;
  largeURL <- resolveSpotifyURL track ;
  ret (MkActivity clientID activityName 2 (ti_Title track) detailsURL
         (ti_Artist track) stateURL (Some 2)
         (MkTimestamps startTime endTime)
         (MkAssets largeImage (ti_Album track) largeURL smallImage smallText)).

Definition clearScheduleID (username : string) : string := username ++ "-clear".

(** [int32(input.Track.Duration) - input.Position + 5], in [int32]. *)
Definition remainingSeconds (input : NowPlayingRequest) : Z :=
  int32_wrap (int32_wrap (int32_wrap (ti_Duration (np_Track input)) - np_Position input) + 5).

(** [NowPlaying]; [None] is the nil error. *)
Definition NowPlaying (input : NowPlayingRequest) : M (option wrapped_error) :=
  Log LogInfo "Setting presence for user %s, track: %s"
      [ArgS (np_Username input); ArgS (ti_Title (np_Track input))] ;;
  (* Load configuration *)
  cfg <- getConfig ;
  let '(clientID, users, err) := cfg in
  match err with
  | Some e => ret (Some (Wrap ScrobblerErrorRetryLater ("failed to get config: " ++ e)))
  | None =>
      (* Check authorization *)
      match users !! np_Username input with
      | None =>
          ret (Some (Wrap ScrobblerErrorNotAuthorized
                          ("user '" ++ np_Username input ++ "' not authorized")))
      | Some userToken =>
          (* Connect to Discord *)
          cerr <- connect (np_Username input) userToken ;
          match cerr with
          | Some e =>
              ret (Some (Wrap ScrobblerErrorRetryLater ("failed to connect to Discord: " ++ e)))
          | None =>
              (* Cancel any existing completion schedule *)
              SchedulerCancelSchedule (clearScheduleID (np_Username input)) ;;
              (* Send activity update *)
              a <- buildActivity clientID input ;
              serr <- sendActivity clientID (np_Username input) userToken a ;
              match serr with
              | Some e =>
                  ret (Some (Wrap ScrobblerErrorRetryLater ("failed to send activity: " ++ e)))
              | None =>
                  (* Schedule a timer to clear the activity after the track completes *)
                  sch <- SchedulerScheduleOneTime (remainingSeconds input) payloadClearActivity
                           (clearScheduleID (np_Username input)) ;
                  match snd sch with
                  | Some e =>
                      Log LogWarn "Failed to schedule completion timer: %v" [ArgS e] ;;
                      ret None
                  | None => ret None
                  end
              end
          end
      end
  end.

End Plugin.

(** ** A host given by tables

    The configuration is an association list, the cache and the HTTP
    service answer by fixed functions, and the gateway and the scheduler
    answer with fixed errors.  It is the host of the examples. *)

Fixpoint assoc (l : list (string * string)) (key : string) : string * bool :=
  match l with
  | [] => ("", false)
  | (k, v) :: r => if String.eqb k key then (v, true) else assoc r key
  end.

Record Tables : Type := MkTables {
  tb_config : list (string * string);
  tb_cache : string -> string * bool * option error;
  tb_http : HTTPRequest -> Z * string;
  tb_connect : option error;
  tb_send : option error;
  tb_schedule : option error;
  tb_now : Z }.

Definition tableHost (t : Tables) : Host :=
  MkHost (fun _ key => assoc (tb_config t) key)
         (fun _ key => tb_cache t key)
         (fun _ _ _ _ => None)
         (fun _ req => tb_http t req)
         (fun _ _ _ => tb_connect t)
         (fun _ _ _ _ _ => tb_send t)
         (fun _ username trackID => "https://art.example/" ++ username ++ "/" ++ trackID)
         (fun _ => tb_now t)
         (fun _ _ => None)
         (fun _ _ _ scheduleID => (scheduleID, tb_schedule t)).

Definition cacheEmpty (key : string) : string * bool * option error := ("", false, None).

Definition httpDown (req : HTTPRequest) : Z * string := (503, "").

(** ** Vocabulary of the statements *)


Definition is_byte (b : Z) : Prop := 0 <= b < 256.





(** The candidate ids of a response in scan order: results in array order,
    the ids of each result in array order. *)
Definition allIDs (results : list listenBrainzResult) : list string :=
  flat_map SpotifyTrackIDs results.

(** [id] is the first non-empty entry of [ids]. *)
Definition firstNonEmpty (ids : list string) (id : string) : Prop :=
  exists pre post, ids = (pre ++ id :: post)%list /\ Forall (eq "") pre /\ id <> "".

(** The cache key [resolveSpotifyURL] derives for a track. *)
Definition trackCacheKey (track : TrackInfo) : string :=
  spotifyCacheKey (primaryArtist track) (ti_Title track) (ti_Album track).

(** Kinds of events. *)
Definition isLookup (e : Event) : bool :=
  match e with EvHTTPSend _ _ _ => true | _ => false end.

Definition isCacheWrite (e : Event) : bool :=
  match e with EvCacheSetString _ _ _ _ => true | _ => false end.

Definition isTransport (e : Event) : bool :=
  match e with
  | EvConnect _ _ _ | EvSendActivity _ _ _ _ _ => true
  | _ => false
  end.

Definition isScheduler (e : Event) : bool :=
  match e with
  | EvCancelSchedule _ _ | EvScheduleOneTime _ _ _ _ _ => true
  | _ => false
  end.


(** *** The fallback chain, in the words of the specification

    [FallbackChain host track h url h'] describes a resolution that starts
    after the cache lookup, with history [h], returns [url] and ends with
    history [h']. *)

Section Chain.

Variable host : Host.
Variable track : TrackInfo.

Definition resolvingLog : Event :=
  EvLog LogInfo "Resolving Spotify URL for: artist=%q title=%q album=%q mbid=%q"
        [ArgS (primaryArtist track); ArgS (ti_Title track); ArgS (ti_Album track);
         ArgS (ti_MBZRecordingID track)].

Definition noIdentifierLog : Event :=
  EvLog LogInfo "No MBZRecordingID available, skipping MBID lookup" [].

Definition idLookupEmptyLog : Event :=
  EvLog LogInfo "MBID lookup did not return a Spotify ID, trying metadata…" [].

Definition resolvedByIDLog (url : string) : Event :=
  EvLog LogInfo "Resolved Spotify via MBID for %q: %s" [ArgS (ti_Title track); ArgS url].

Definition resolvedByMetadataLog (url : string) : Event :=
  EvLog LogInfo "Resolved Spotify via metadata for %q - %q: %s"
        [ArgS (primaryArtist track); ArgS (ti_Title track); ArgS url].

Definition fallbackLog (url : string) : Event :=
  EvLog LogInfo "Spotify resolution missed, falling back to search URL for %q - %q: %s"
        [ArgS (primaryArtist track); ArgS (ti_Title track); ArgS url].

(** A cache write of [url] under the key of the track, with any answer. *)
Definition cachedWith (url : string) (ttl : Z) (e : Event) : Prop :=
  exists answer, e = EvCacheSetString (trackCacheKey track) url ttl answer.

(** Step 4 did not return: there is no recording identifier, or the
    lookup by identifier gave no id.  [hID] is the history at that point. *)
Inductive IDLookupFailed (h hID : History) : Prop :=
  | NoIdentifier :
      ti_MBZRecordingID track = "" ->
      hID = (h ++ [resolvingLog; noIdentifierLog])%list ->
      IDLookupFailed h hID
  | IDLookupEmpty (hT : History) :
      ti_MBZRecordingID track <> "" ->
      trySpotifyFromMBID host (ti_MBZRecordingID track) (h ++ [resolvingLog])%list = ("", hT) ->
      hID = (hT ++ [idLookupEmptyLog])%list ->
      IDLookupFailed h hID.

(** Step 5 did not return: the primary artist or the title is empty and no
    lookup is made, or the lookup by metadata gave no id. *)
Inductive MetadataLookupFailed (hID hM : History) : Prop :=
  | NoMetadata :
      primaryArtist track = "" \/ ti_Title track = "" ->
      hM = hID ->
      MetadataLookupFailed hID hM
  | MetadataLookupEmpty :
      primaryArtist track <> "" ->
      ti_Title track <> "" ->
      trySpotifyFromMetadata host (primaryArtist track) (ti_Title track) (ti_Album track) hID
      = ("", hM) ->
      MetadataLookupFailed hID hM.

Inductive FallbackChain (h : History) : string -> History -> Prop :=
  | ChainByID (id : string) (hT : History) (write : Event) :
      ti_MBZRecordingID track <> "" ->
      trySpotifyFromMBID host (ti_MBZRecordingID track) (h ++ [resolvingLog])%list = (id, hT) ->
      id <> "" ->
      cachedWith ("https://open.spotify.com/track/" ++ id) spotifyCacheTTLHit write ->
      FallbackChain h ("https://open.spotify.com/track/" ++ id)
        (hT ++ [write; resolvedByIDLog ("https://open.spotify.com/track/" ++ id)])%list
  | ChainByMetadata (hID : History) (id : string) (hM : History) (write : Event) :
      IDLookupFailed h hID ->
      primaryArtist track <> "" ->
      ti_Title track <> "" ->
      trySpotifyFromMetadata host (primaryArtist track) (ti_Title track) (ti_Album track) hID
      = (id, hM) ->
      id <> "" ->
      cachedWith ("https://open.spotify.com/track/" ++ id) spotifyCacheTTLHit write ->
      FallbackChain h ("https://open.spotify.com/track/" ++ id)
        (hM ++ [write; resolvedByMetadataLog ("https://open.spotify.com/track/" ++ id)])%list
  | ChainBySearch (hID hM : History) (write : Event) :
      IDLookupFailed h hID ->
      MetadataLookupFailed hID hM ->
      cachedWith (buildSpotifySearchURL (ti_Title track) (ti_Artist track))
                 spotifyCacheTTLMiss write ->
      FallbackChain h (buildSpotifySearchURL (ti_Title track) (ti_Artist track))
        (hM ++ [write; fallbackLog (buildSpotifySearchURL (ti_Title track) (ti_Artist track))])%list.

End Chain.

Definition isLog (e : Event) : bool :=
  match e with EvLog _ _ _ => true | _ => false end.

(** What a lookup does, whatever the service answers: one request is sent,
    the rest is logging, and the id is read from the body of a 2xx answer. *)
Definition lookupSends (host : Host) (req : HTTPRequest) (before : list Event)
    (r : string * History) (h : History) : Prop :=
  let h0 := (h ++ before)%list in
  exists logs,
    r = (if status_ok (fst (pdk_Send host h0 req))
         then parseSpotifyID (snd (pdk_Send host h0 req)) else "",
         (h0 ++ EvHTTPSend req (fst (pdk_Send host h0 req)) (snd (pdk_Send host h0 req))
             :: logs)%list)
    /\ forallb isLog logs = true.

(** *** Tracks and hosts of the examples *)

Definition karmaPolice : TrackInfo :=
  MkTrackInfo "track-1" "Karma Police" "OK Computer" "Radiohead" [] 200 "".

Definition karmaPoliceMBID : TrackInfo :=
  MkTrackInfo "track-1" "Karma Police" "OK Computer" "Radiohead" [] 200 "mbid-123".

Definition discordConfig : list (string * string) :=
  [("clientid", "client-1");
   ("users", "[{" ++ q "username" ++ ":" ++ q "alice" ++ ","
                  ++ q "token" ++ ":" ++ q "token-a" ++ "}]")].

(** The metadata endpoint knows the track, the identifier endpoint
    answers 404. *)
Definition metadataKnows (req : HTTPRequest) : Z * string :=
  if String.eqb (rq_URL req) metadataURL
  then (200, "[{" ++ q "spotify_track_ids" ++ ":[" ++ q "meta456" ++ "]}]")
  else (404, "[]").

Definition onlyMetadata : Tables :=
  MkTables discordConfig cacheEmpty metadataKnows None None None 1700000000.

Definition cacheHolds (url : string) (key : string) : string * bool * option error :=
  (url, true, None).

Definition cached123 : Tables :=
  MkTables discordConfig (cacheHolds "https://open.spotify.com/track/cached123")
           httpDown None None None 1700000000.

(** The cache read that opens [resolveSpotifyURL], with the host's answer. *)
Definition cacheRead (host : Host) (track : TrackInfo) (h : History) : Event :=
  let got := host_CacheGetString host h (trackCacheKey track) in
  EvCacheGetString (trackCacheKey track) (fst (fst got)) (snd (fst got)) (snd got).

Definition metadataRequestLog (artist title album : string) : Event :=
  EvLog LogInfo "ListenBrainz metadata request: %s" [ArgS (metadataPayload artist title album)].

(** [m] only adds events of kind [P] to the history, from any start. *)
Definition emits {A : Type} (P : Event -> bool) (m : M A) : Prop :=
  forall h, exists t, snd (m h) = (h ++ t)%list /\ forallb P t = true.

Definition isGetConfig (e : Event) : bool :=
  match e with EvGetConfig _ _ _ => true | _ => false end.

Definition isCacheRead (e : Event) : bool :=
  match e with EvCacheGetString _ _ _ _ => true | _ => false end.

(** The events of loading the configuration. *)
Definition isConfigEvent (e : Event) : bool := isLog e || isGetConfig e.

(** The events of a resolution: logging, the cache and the lookups. *)
Definition isResolverEvent (e : Event) : bool :=
  isLog e || isCacheRead e || isCacheWrite e || isLookup e.

(** Neither the gateway nor the scheduler is involved. *)
Definition isQuiet (e : Event) : bool := negb (isTransport e) && negb (isScheduler e).

(** The log line that opens [NowPlaying]. *)
Definition presenceLog (input : NowPlayingRequest) : Event :=
  EvLog LogInfo "Setting presence for user %s, track: %s"
        [ArgS (np_Username input); ArgS (ti_Title (np_Track input))].

(** What is logged after the scheduling call: a warning when it failed. *)
Definition scheduleFailureLog (err : option error) : list Event :=
  match err with
  | Some e => [EvLog LogWarn "Failed to schedule completion timer: %v" [ArgS e]]
  | None => []
  end.

(** The user-to-token mapping [NowPlaying] works with: what [getConfig]
    returns when it is run after the opening log line. *)
Definition configuredUsers (host : Host) (input : NowPlayingRequest) (h : History)
  : gmap string string :=
  snd (fst (fst (getConfig host (h ++ [presenceLog input])%list))).

Definition isSendActivity (e : Event) : bool :=
  match e with EvSendActivity _ _ _ _ _ => true | _ => false end.

(** Among the events [t] is a send that the gateway answered with [answer]. *)
Definition sentWith (answer : option error) (t : list Event) : Prop :=
  exists clientID username token a, In (EvSendActivity clientID username token a answer) t.

(** Hosts and requests of the examples. *)
Definition aliceListens (duration position : Z) : NowPlayingRequest :=
  MkNowPlayingRequest "alice"
    (MkTrackInfo "track-1" "Karma Police" "OK Computer" "Radiohead" [] duration "")
    position.

Definition bobListens : NowPlayingRequest :=
  MkNowPlayingRequest "bob" karmaPolice 30.


Definition scheduleFails : Tables :=
  MkTables discordConfig cacheEmpty metadataKnows None None (Some "scheduler down") 1700000000.

Definition brokenUsers : Tables :=
  MkTables [("clientid", "client-1"); ("users", "not json")]
           cacheEmpty httpDown None None None 1700000000.

Definition notScheduler (e : Event) : bool := negb (isScheduler e).

(** The shape of a run that reached [rpc.sendActivity]: the events before
    the cancel, the cancel of the clear schedule of the user, the events
    of building the activity, and the send with its answer. *)
Definition reachedSend (input : NowPlayingRequest) (answer : option error)
    (body : list Event) : Prop :=
  exists pre cancelled mid clientID token a,
    body = (pre ++ EvCancelSchedule (clearScheduleID (np_Username input)) cancelled
                :: mid ++ [EvSendActivity clientID (np_Username input) token a answer])%list
    /\ forallb notScheduler pre = true
    /\ forallb isQuiet mid = true.

(** The identifier endpoint knows the recording. *)
Definition identifierKnows (req : HTTPRequest) : Z * string :=
  if String.eqb (rq_URL req) mbidURL
  then (200, "[{" ++ q "spotify_track_ids" ++ ":[" ++ q "track123" ++ "]}]")
  else (404, "[]").

Definition onlyIdentifier : Tables :=
  MkTables discordConfig cacheEmpty identifierKnows None None None 1700000000.

Definition someSong : TrackInfo :=
  MkTrackInfo "track-2" "Some Song" "Some Album" ""
              [MkArtistRef "artist-1" "Fallback Artist"] 180 "".

(** The schedules that are registered, as the calls of a run change them,
    for a scheduler that keeps its contract: a successful
    [scheduleOneTime] registers the schedule id, a successful
    [cancelSchedule] removes it, a failed call changes nothing. *)
Definition schedulerStep (registered : gset string) (e : Event) : gset string :=
  match e with
  | EvCancelSchedule id None => registered ∖ {[ id ]}
  | EvScheduleOneTime _ _ id _ None => registered ∪ {[ id ]}
  | _ => registered
  end.

Definition pending (registered : gset string) (t : list Event) : gset string :=
  fold_left schedulerStep t registered.

(** ** Vocabulary of the further properties *)








(** [c] is one of [0-9a-f]. *)
Definition is_lower_hex (c : ascii) : bool :=
  let v := Str.byte_val c in
  ((48 <=? v) && (v <=? 57)) || ((97 <=? v) && (v <=? 102)).

Fixpoint all_bytes (P : ascii -> bool) (s : string) : bool :=
  match s with
  | EmptyString => true
  | String c r => P c && all_bytes P r
  end.




(** The calls of a list of events that are not log lines. *)
Definition calls (t : list Event) : list Event :=
  List.filter (fun e => negb (isLog e)) t.

(** The id a lookup reads from an answer: the body counts only under a
    2xx status. *)
Definition idOfAnswer (answer : Z * string) : string :=
  if (200 <=? fst answer) && (fst answer <? 300) then parseSpotifyID (snd answer) else "".

(** Printable ASCII: the bytes [%q] copies or escapes with a backslash only. *)
Definition is_printable (c : ascii) : bool :=
  (32 <=? Str.byte_val c) && (Str.byte_val c <=? 126).

(** The bytes that stand for themselves inside a JSON string: no quote, no
    backslash, no control character. *)
Definition is_json_plain (c : ascii) : bool :=
  (32 <=? Str.byte_val c) && negb (Str.byte_val c =? 34) && negb (Str.byte_val c =? 92).

(** The body of the lookup by metadata and of the lookup by identifier, as
    JSON values. *)
Definition metadataJSON (artist title album : string) : Json.value :=
  Json.Array [Json.Object [("artist_name", Json.Str artist);
                           ("track_name", Json.Str title);
                           ("release_name", Json.Str album)]].


(** The text [txt], wherever it stands in a JSON text, reads as the
    value [v]. *)
Definition readsAs (txt : string) (v : Json.value) : Prop :=
  forall f rest, Json.parse_value (S f) (txt ++ rest) = Some (v, rest).

(** The two outcomes of a resolution that missed the cache: a direct
    track URL kept for 30 days, or the search URL kept for 4 hours. *)
Definition missOutcome (track : TrackInfo) (url : string) (ttl : Z) : Prop :=
  (exists id, id <> "" /\ url = "https://open.spotify.com/track/" ++ id
              /\ ttl = spotifyCacheTTLHit)
  \/ (url = buildSpotifySearchURL (ti_Title track) (ti_Artist track)
      /\ ttl = spotifyCacheTTLMiss).

(** *** A cache that keeps what it is given

    [lastWrite key h] is the value of the last successful write under [key]
    in the history [h].  A host has a faithful cache when every write
    succeeds and every read returns the last write (no entry expires between
    the calls that are looked at). *)
Definition cacheStep (key : string) (held : option string) (e : Event) : option string :=
  match e with
  | EvCacheSetString k v _ None => if String.eqb k key then Some v else held
  | _ => held
  end.

Definition lastWrite (key : string) (h : History) : option string :=
  fold_left (cacheStep key) h None.

Definition cacheFaithful (host : Host) : Prop :=
  (forall h key,
      host_CacheGetString host h key
      = match lastWrite key h with
        | Some v => (v, true, None)
        | None => ("", false, None)
        end)
  /\ (forall h key value ttl, host_CacheSetString host h key value ttl = None).

(** The host of the tables, with a cache that answers from the history. *)
Definition memoHost (t : Tables) : Host :=
  MkHost (fun _ key => assoc (tb_config t) key)
         (fun h key => match lastWrite key h with
                       | Some v => (v, true, None)
                       | None => ("", false, None)
                       end)
         (fun _ _ _ _ => None)
         (fun _ req => tb_http t req)
         (fun _ _ _ => tb_connect t)
         (fun _ _ _ _ _ => tb_send t)
         (fun _ username trackID => "https://art.example/" ++ username ++ "/" ++ trackID)
         (fun _ => tb_now t)
         (fun _ _ => None)
         (fun _ _ _ scheduleID => (scheduleID, tb_schedule t)).

(** No failed cache write. *)
Definition writeSucceeded (e : Event) : bool :=
  match e with
  | EvCacheSetString _ _ _ (Some _) => false
  | _ => true
  end.

(** An entry of the users list that [getConfig] takes into the map. *)
Definition validEntry (ut : userToken) : bool :=
  negb (String.eqb (ut_Username ut) "") && negb (String.eqb (ut_Token ut) "").

(** The client id and the users map that [getConfig] returns. *)
Definition configuredClientID (host : Host) (h : History) : string :=
  fst (fst (fst (getConfig host h))).

Definition usersOf (host : Host) (h : History) : gmap string string :=
  snd (fst (fst (getConfig host h))).

Definition connectFails : Tables :=
  MkTables discordConfig cacheEmpty metadataKnows (Some "no gateway") None None 1700000000.


(** ** The scheduler callback *)

(** [strings.HasSuffix] and [strings.TrimSuffix] *)
Definition HasSuffix (s suffix : string) : bool :=
  (String.length suffix <=? String.length s)%nat
  && String.eqb (Str.slice_from (String.length s - String.length suffix) s) suffix.

Definition TrimSuffix (s suffix : string) : string :=
  if HasSuffix s suffix
  then Str.slice_to (String.length s - String.length suffix) s
  else s.

(** Modelled from the spec: the payload tag of the heartbeat callback is a
    constant declared next to the gateway code, outside [main.go]; the
    specification names it the heartbeat tag.  The two tags are the cases of
    one [switch], so they differ. *)
Definition payloadHeartbeat : string := "heartbeat".

Record SchedulerCallbackRequest : Type := MkCallbackRequest {
  cb_ScheduleID : string;
  cb_Payload : string;
  cb_IsRecurring : bool }.

(** The calls of [OnCallback], with their answers. *)
Inductive CallbackEvent : Type :=
  | CbLog (level : LogLevel) (format : string) (args : list Arg)
  | CbHeartbeat (username : string) (err : option error)
  | CbClearActivity (username : string) (err : option error).

(** The two handlers of the gateway connection; what they answer may depend
    on what happened before. *)
Record CallbackHandlers : Type := MkCallbackHandlers {
  rpc_handleHeartbeatCallback : list CallbackEvent -> string -> option error;
  rpc_handleClearActivityCallback : list CallbackEvent -> string -> option error }.

(** [OnCallback]: the error it returns and the history it leaves. *)
Definition OnCallback (handlers : CallbackHandlers) (input : SchedulerCallbackRequest)
    (h : list CallbackEvent) : option error * list CallbackEvent :=
  let h1 :=
    (h ++ [CbLog LogDebug "Scheduler callback: id=%s, payload=%s, recurring=%v"
                 [ArgS (cb_ScheduleID input); ArgS (cb_Payload input);
                  ArgB (cb_IsRecurring input)]])%list in
  (* Route based on payload *)
  if String.eqb (cb_Payload input) payloadHeartbeat then
    (* Heartbeat callback - scheduleId is the username *)
    let err := rpc_handleHeartbeatCallback handlers h1 (cb_ScheduleID input) in
    (err, (h1 ++ [CbHeartbeat (cb_ScheduleID input) err])%list)
  else if String.eqb (cb_Payload input) payloadClearActivity then
    (* Clear activity callback - scheduleId is "username-clear" *)
    let username := TrimSuffix (cb_ScheduleID input) "-clear" in
    let err := rpc_handleClearActivityCallback handlers h1 username in
    (err, (h1 ++ [CbClearActivity username err])%list)
  else
    (None,
     (h1 ++ [CbLog LogWarn "Unknown scheduler callback payload: %s"
                   [ArgS (cb_Payload input)]])%list).

(** [Scrobble]: Discord Rich Presence does not need scrobble events. *)
Definition Scrobble : option error := None.

Definition callbackLog (input : SchedulerCallbackRequest) : CallbackEvent :=
  CbLog LogDebug "Scheduler callback: id=%s, payload=%s, recurring=%v"
        [ArgS (cb_ScheduleID input); ArgS (cb_Payload input); ArgB (cb_IsRecurring input)].

Definition isHandlerCall (e : CallbackEvent) : bool :=
  match e with CbLog _ _ _ => false | _ => true end.

(** Handlers that always succeed, for the examples. *)
Definition quietHandlers : CallbackHandlers :=
  MkCallbackHandlers (fun _ _ => None) (fun _ _ => None).

(** The event leaves every schedule but [id] alone. *)
Definition touchesOnly (id : string) (e : Event) : bool :=
  match e with
  | EvCancelSchedule i _ => String.eqb i id
  | EvScheduleOneTime _ _ i _ _ => String.eqb i id
  | _ => true
  end.

(** The configuration does not change while the plugin runs. *)
Definition stableConfig (host : Host) : Prop :=
  forall (h h' : History) (key : string),
    pdk_GetConfig host h key = pdk_GetConfig host h' key.

(** The call was refused because the user is not authorized. *)
Definition isNotAuthorized (r : option wrapped_error) : bool :=
  match r with
  | Some (Wrap ScrobblerErrorNotAuthorized _) => true
  | _ => false
  end.

(** * Properties *)

(** ** Test vectors *)

Example sha256_constants :
  nth 0 Sha256.K 0 = 0x428a2f98 /\ nth 63 Sha256.K 0 = 0xc67178f2
  /\ nth 0 Sha256.H0 0 = 0x6a09e667 /\ nth 7 Sha256.H0 0 = 0x5be0cd19
  /\ length Sha256.K = 64%nat /\ length Sha256.H0 = 8%nat.
Proof. vm_compute. repeat split. Qed.

Example sha256_abc :
  Hex.EncodeToString (Sha256.Sum256 (Str.bytes "abc"))
  = "ba7816bf8f01cfea414140de5dae2223b00361a396177a9cb410ff61f20015ad".
Proof. vm_compute. reflexivity. Qed.

Example sha256_empty :
  Hex.EncodeToString (Sha256.Sum256 (Str.bytes ""))
  = "e3b0c44298fc1c149afbf4c8996fb92427ae41e4649b934ca495991b7852b855".
Proof. vm_compute. reflexivity. Qed.

Example sha256_two_blocks :
  Hex.EncodeToString
    (Sha256.Sum256 (Str.bytes "abcdbcdecdefdefgefghfghighijhijkijkljklmklmnlmnomnopnopq"))
  = "248d6a61d20638b8e5c026930c3e6039a33ce45964ff2167f6ecedd419db06c1".
Proof. vm_compute. reflexivity. Qed.

Example buildSpotifySearchURL_both_empty :
  buildSpotifySearchURL "" "" = "https://open.spotify.com/search/".
Proof. reflexivity. Qed.

Example buildSpotifySearchURL_rick :
  buildSpotifySearchURL "Never Gonna Give You Up" "Rick Astley"
  = "https://open.spotify.com/search/Rick%20Astley%20Never%20Gonna%20Give%20You%20Up".
Proof. vm_compute. reflexivity. Qed.

Example buildSpotifySearchURL_only_title :
  buildSpotifySearchURL "Only Title" "" = "https://open.spotify.com/search/Only%20Title".
Proof. vm_compute. reflexivity. Qed.

Example spotifyCacheKey_radiohead :
  spotifyCacheKey "Radiohead" "Karma Police" "OK Computer"
  = spotifyCacheKey "radiohead" "karma police" "ok computer"
  /\ spotifyCacheKey "Radiohead" "Karma Police" "OK Computer"
     <> spotifyCacheKey "Radiohead" "Karma Police" "The Bends"
  /\ String.length (spotifyCacheKey "Radiohead" "Karma Police" "OK Computer") = 28%nat.
Proof. vm_compute. repeat split. discriminate. Qed.

Example parsePrimaryArtist_table :
  parsePrimaryArtist "Radiohead" = ("Radiohead", "")
  /\ parsePrimaryArtist "Wretch 32 Feat. Badness & Ghetts"
     = ("Wretch 32", "Feat. Badness & Ghetts")
  /\ parsePrimaryArtist "Artist Ft. Guest" = ("Artist", "Ft. Guest")
  /\ parsePrimaryArtist "Artist Featuring Someone" = ("Artist", "Featuring Someone")
  /\ parsePrimaryArtist "PinkPantheress & Ice Spice" = ("PinkPantheress", "")
  /\ parsePrimaryArtist "Artist A / Artist B" = ("Artist A", "")
  /\ parsePrimaryArtist "" = ("", "").
Proof. vm_compute. repeat split. Qed.

(** The table of [TestParseSpotifyID]. *)
Example parseSpotifyID_single :
  parseSpotifyID ("[{" ++ q "spotify_track_ids" ++ ":[" ++ q "4tIGK5G9hNDA50ZdGioZRG" ++ "]}]")
  = "4tIGK5G9hNDA50ZdGioZRG".
Proof. vm_compute. reflexivity. Qed.

Example parseSpotifyID_picks_first :
  parseSpotifyID
    ("[{" ++ q "artist_name" ++ ":" ++ q "Lil Baby & Drake" ++ ","
          ++ q "track_name" ++ ":" ++ q "Yes Indeed" ++ ","
          ++ q "spotify_track_ids" ++ ":[" ++ q "6vN77lE9LK6HP2DewaN6HZ" ++ ","
          ++ q "4wlLbLeDWbA6TzwZFp1UaK" ++ "]}]")
  = "6vN77lE9LK6HP2DewaN6HZ".
Proof. vm_compute. reflexivity. Qed.

Example parseSpotifyID_extra_fields :
  parseSpotifyID
    ("[{" ++ q "artist_name" ++ ":" ++ q "Radiohead" ++ ","
          ++ q "track_name" ++ ":" ++ q "Karma Police" ++ ","
          ++ q "spotify_track_ids" ++ ":[" ++ q "63OQupATfueTdZMWIV7nzz" ++ "],"
          ++ q "release_name" ++ ":" ++ q "OK Computer" ++ "}]")
  = "63OQupATfueTdZMWIV7nzz".
Proof. vm_compute. reflexivity. Qed.

Example parseSpotifyID_empty_cases :
  parseSpotifyID ("[{" ++ q "spotify_track_ids" ++ ":[]}]") = ""
  /\ parseSpotifyID ("[{" ++ q "artist_name" ++ ":" ++ q "Unknown" ++ "}]") = ""
  /\ parseSpotifyID "[]" = ""
  /\ parseSpotifyID "not json" = "".
Proof. vm_compute. repeat split. Qed.

Example parseSpotifyID_second_result :
  parseSpotifyID ("[{" ++ q "spotify_track_ids" ++ ":[]},{"
                       ++ q "spotify_track_ids" ++ ":[" ++ q "abc123" ++ "]}]")
  = "abc123".
Proof. vm_compute. reflexivity. Qed.

Example parseSpotifyID_type_error :
  parseSpotifyID ("[{" ++ q "spotify_track_ids" ++ ":[1," ++ q "abc123" ++ "]}]") = ""
  /\ parseSpotifyID ("[{" ++ q "spotify_track_ids" ++ ":[null," ++ q "abc123" ++ "]}]")
     = "abc123"
  /\ parseSpotifyID (" [ null , {" ++ q "Spotify_Track_IDs" ++ " : [ " ++ q "x" ++ " ] } ] ")
     = "x"
  /\ parseSpotifyID ("[{" ++ q "spotify_track_ids" ++ ":[" ++ q "abc123" ++ "]}] x") = "".
Proof. vm_compute. repeat split. Qed.

(** ** The cache key *)






(** *** How far the key separates triples *)




Lemma byte_val_of (z : Z) : Str.byte_val (Str.byte_of z) = z mod 256.
Proof.
  unfold Str.byte_val, Str.byte_of.
  rewrite N_ascii_embedding.
  - apply Z2N.id. apply Z.mod_pos_bound. lia.
  - change 256%N with (Z.to_N 256). apply Z2N.inj_lt; try lia; apply Z.mod_pos_bound; lia.
Qed.



Lemma be_bytes_is_byte (n : nat) (x : Z) : Forall is_byte (Sha256.be_bytes n x).
Proof.
  unfold Sha256.be_bytes. apply List.Forall_forall. intros b Hb.
  apply List.in_map_iff in Hb as (i & <- & _). apply Z.mod_pos_bound. lia.
Qed.

Lemma Sum256_is_byte (msg : list Z) : Forall is_byte (Sha256.Sum256 msg).
Proof.
  unfold Sha256.Sum256. generalize (Sha256.blocks (length (Sha256.pad msg)) Sha256.H0 (Sha256.pad msg)).
  intros ws. induction ws as [|w ws IH].
  - constructor.
  - change (Forall is_byte (Sha256.be_bytes 4 w ++ flat_map (Sha256.be_bytes 4) ws)).
    apply List.Forall_app. split; [apply be_bytes_is_byte | exact IH].
Qed.





(** ** The artist-name parser *)









Lemma ToLower_empty (s : string) : Str.ToLower s = "" -> s = "".
Proof. destruct s; [reflexivity | discriminate]. Qed.




(** ** The ListenBrainz response scan *)

Lemma firstNonEmpty_inv (x : string) (l : list string) (id : string) :
  firstNonEmpty (x :: l) id ->
  (x <> "" /\ id = x) \/ (x = "" /\ firstNonEmpty l id).
Proof.
  intros (pre & post & E & Hpre & Hid). destruct pre as [|p pre].
  - simpl in E. injection E as -> _. left. auto.
  - simpl in E. injection E as -> ->.
    apply Forall_cons in Hpre as [<- Hpre]. right. split; [reflexivity|].
    exists pre, post. auto.
Qed.

Lemma scanResults_first (results : list listenBrainzResult) (id : string) :
  firstNonEmpty (allIDs results) id -> scanResults results = id.
Proof.
  induction results as [|[ids] results IH].
  - intros (pre & post & E & _). destruct pre; discriminate E.
  - unfold allIDs. simpl. fold (allIDs results).
    induction ids as [|x ids IHids]; simpl; [exact IH|].
    intros H. apply firstNonEmpty_inv in H as [[Hx ->]|[-> H]].
    + apply String.eqb_neq in Hx. now rewrite Hx.
    + simpl. now apply IHids.
Qed.

Lemma scanResults_all_empty (results : list listenBrainzResult) :
  Forall (eq "") (allIDs results) -> scanResults results = "".
Proof.
  induction results as [|[ids] results IH]; [reflexivity|].
  unfold allIDs. simpl. fold (allIDs results).
  induction ids as [|x ids IHids]; simpl; [exact IH|].
  intros H. apply Forall_cons in H as [<- H]. simpl. now apply IHids.
Qed.

(** C6.  When the body does not parse as JSON, or does not decode into a
    list of results, [parseSpotifyID] returns the empty string.  When it
    decodes into [results], the ids are scanned result by result in array
    order and, within a result, in array order: the answer is the first
    non-empty id of that sequence, and the empty string when the array is
    empty or every id is empty.  [parseSpotifyID] is a total function: it
    gives an answer, never an error, for every byte string. *)
Theorem parseSpotifyID_first_nonempty (body : string) :
  (Json.parse body = None -> parseSpotifyID body = "")
  /\ (unmarshalResults body = None -> parseSpotifyID body = "")
  /\ (forall results, unmarshalResults body = Some results ->
        (results = [] -> parseSpotifyID body = "")
        /\ (Forall (eq "") (allIDs results) -> parseSpotifyID body = "")
        /\ (forall id, firstNonEmpty (allIDs results) id -> parseSpotifyID body = id)).
Proof.
  unfold parseSpotifyID. repeat split.
  - intros H. unfold unmarshalResults, unmarshalSlice. now rewrite H.
  - intros H. now rewrite H.
  - intros ->. now rewrite H.
  - intros Hall. rewrite H. now apply scanResults_all_empty.
  - intros id Hid. rewrite H. now apply scanResults_first.
Qed.

Lemma parseSpotifyID_first_nonempty_witness :
  parseSpotifyID ("[{" ++ q "spotify_track_ids" ++ ":[]},{"
                       ++ q "spotify_track_ids" ++ ":[" ++ q "" ++ "," ++ q "abc123" ++ ","
                       ++ q "def456" ++ "]}]")
  = "abc123".
Proof.
  eapply (parseSpotifyID_first_nonempty _).
  - vm_compute. reflexivity.
  - exists [""], ["def456"]. split; [reflexivity|]. split; [|discriminate].
    constructor; [reflexivity | constructor].
Defined.

(** ** The resolver *)

(** C2.  When the cache read for the key of the track succeeds and finds
    the key, [resolveSpotifyURL] returns the cached string as it is, and
    the run consists of the cache read and one log line: no lookup request
    and no cache write.  When the cache read returns an error, whatever
    else it returns, the run goes on with the steps of a miss
    ([resolveMiss]), exactly as when the key is reported absent. *)
Theorem resolveSpotifyURL_cache_hit (host : Host) (track : TrackInfo) (h : History) :
  (forall cached,
      host_CacheGetString host h (trackCacheKey track) = (cached, true, None) ->
      exists t,
        resolveSpotifyURL host track h = (cached, (h ++ t)%list)
        /\ t = [EvCacheGetString (trackCacheKey track) cached true None;
                EvLog LogInfo "Spotify URL cache hit for %q - %q → %s"
                      [ArgS (primaryArtist track); ArgS (ti_Title track); ArgS cached]]
        /\ forallb (fun e => negb (isLookup e) && negb (isCacheWrite e)) t = true)
  /\ (forall value found e,
         host_CacheGetString host h (trackCacheKey track) = (value, found, Some e) ->
         resolveSpotifyURL host track h
         = resolveMiss host track
             (h ++ [EvCacheGetString (trackCacheKey track) value found (Some e)])%list)
  /\ (forall value,
         host_CacheGetString host h (trackCacheKey track) = (value, false, None) ->
         resolveSpotifyURL host track h
         = resolveMiss host track
             (h ++ [EvCacheGetString (trackCacheKey track) value false None])%list).
Proof.
  unfold resolveSpotifyURL, CacheGetString, call, bind. fold (trackCacheKey track).
  repeat split.
  - intros cached H. eexists. rewrite H. cbn [cacheHit fst snd andb].
    unfold Log, call, bind, ret. rewrite <- app_assoc. cbn [app].
    repeat split; reflexivity.
  - intros value found e H. rewrite H. reflexivity.
  - intros value H. rewrite H. reflexivity.
Qed.

(** *** Running the monad *)

Lemma bind_run {A B : Type} (m : M A) (k : A -> M B) (h : History) :
  bind m k h = k (fst (m h)) (snd (m h)).
Proof. unfold bind. now destruct (m h). Qed.

Lemma Log_run (level : LogLevel) (format : string) (args : list Arg) (h : History) :
  Log level format args h = (tt, (h ++ [EvLog level format args])%list).
Proof. reflexivity. Qed.

Lemma CacheSetString_run (host : Host) (key value : string) (ttl : Z) (h : History) :
  CacheSetString host key value ttl h
  = (host_CacheSetString host h key value ttl,
     (h ++ [EvCacheSetString key value ttl (host_CacheSetString host h key value ttl)])%list).
Proof. reflexivity. Qed.

Lemma app_two {A : Type} (l : list A) (x y : A) :
  ((l ++ [x]) ++ [y] = l ++ [x; y])%list.
Proof. now rewrite <- app_assoc. Qed.

(** *** The miss path *)

Lemma searchFallback_run (host : Host) (track : TrackInfo) (h : History) :
  exists write,
    cachedWith track (buildSpotifySearchURL (ti_Title track) (ti_Artist track))
               spotifyCacheTTLMiss write
    /\ searchFallback host track h
       = (buildSpotifySearchURL (ti_Title track) (ti_Artist track),
          (h ++ [write; fallbackLog track
                          (buildSpotifySearchURL (ti_Title track) (ti_Artist track))])%list).
Proof.
  eexists. split; [eexists; reflexivity|].
  unfold searchFallback. cbv zeta.
  rewrite bind_run, CacheSetString_run. cbn [fst snd].
  rewrite bind_run, Log_run. cbn [fst snd]. unfold ret.
  rewrite app_two. reflexivity.
Qed.

Lemma metadataLookup_chain (host : Host) (track : TrackInfo) (h hID : History) :
  IDLookupFailed host track h hID ->
  FallbackChain host track h (fst (metadataLookup host track hID))
                (snd (metadataLookup host track hID)).
Proof.
  intros Hid. unfold metadataLookup. cbv zeta.
  destruct (String.eqb_spec (primaryArtist track) "") as [Ep|Ep]; cbn [negb andb].
  { destruct (searchFallback_run host track hID) as (write & Hw & ->). cbn [fst snd].
    eapply ChainBySearch; eauto. apply NoMetadata; auto. }
  destruct (String.eqb_spec (ti_Title track) "") as [Et|Et]; cbn [negb andb].
  { destruct (searchFallback_run host track hID) as (write & Hw & ->). cbn [fst snd].
    eapply ChainBySearch; eauto. apply NoMetadata; auto. }
  rewrite bind_run.
  destruct (trySpotifyFromMetadata host (primaryArtist track) (ti_Title track)
              (ti_Album track) hID) as [id hM] eqn:Em.
  cbn [fst snd].
  destruct (String.eqb_spec id "") as [Ei|Ei]; cbn [negb].
  - subst id. destruct (searchFallback_run host track hM) as (write & Hw & ->). cbn [fst snd].
    eapply ChainBySearch; eauto. now apply MetadataLookupEmpty.
  - rewrite bind_run, CacheSetString_run. cbn [fst snd].
    rewrite bind_run, Log_run. cbn [fst snd]. unfold ret, trackURL. rewrite app_two.
    cbn [fst snd]. eapply ChainByMetadata; eauto. eexists. reflexivity.
Qed.

Lemma resolveMiss_chain (host : Host) (track : TrackInfo) (h : History) :
  FallbackChain host track h (fst (resolveMiss host track h))
                (snd (resolveMiss host track h)).
Proof.
  unfold resolveMiss. cbv zeta.
  rewrite bind_run, Log_run. cbn [fst snd]. fold (resolvingLog track).
  destruct (String.eqb_spec (ti_MBZRecordingID track) "") as [Eid|Eid]; cbn [negb].
  - rewrite bind_run, Log_run. cbn [fst snd]. fold noIdentifierLog.
    apply metadataLookup_chain. apply NoIdentifier; [exact Eid|]. now rewrite app_two.
  - rewrite bind_run.
    destruct (trySpotifyFromMBID host (ti_MBZRecordingID track) (h ++ [resolvingLog track])%list)
      as [id hT] eqn:Et.
    cbn [fst snd].
    destruct (String.eqb_spec id "") as [Ei|Ei]; cbn [negb].
    + subst id. rewrite bind_run, Log_run. cbn [fst snd]. fold idLookupEmptyLog.
      apply metadataLookup_chain. eapply IDLookupEmpty; eauto.
    + rewrite bind_run, CacheSetString_run. cbn [fst snd].
      rewrite bind_run, Log_run. cbn [fst snd]. unfold ret, trackURL. rewrite app_two.
      cbn [fst snd]. eapply ChainByID; eauto. eexists. reflexivity.
Qed.

Lemma trySpotifyFromMBID_sends (host : Host) (mbid : string) (h : History) :
  lookupSends host (mbidRequest mbid) [] (trySpotifyFromMBID host mbid h) h.
Proof.
  unfold lookupSends, trySpotifyFromMBID. rewrite app_nil_r. cbv zeta.
  rewrite bind_run. unfold Send at 1 2, call. cbn [fst snd].
  destruct (pdk_Send host h (mbidRequest mbid)) as [status body]. cbn [fst snd].
  destruct (status_ok status); cbn [negb].
  - rewrite bind_run. destruct (String.eqb (parseSpotifyID body) "").
    + rewrite Log_run. cbn [fst snd]. unfold ret. rewrite <- app_assoc.
      eexists. split; reflexivity.
    + unfold ret. cbn [fst snd]. exists []. split; reflexivity.
  - rewrite bind_run, Log_run. cbn [fst snd]. unfold ret. rewrite <- app_assoc.
    eexists. split; reflexivity.
Qed.

Lemma trySpotifyFromMetadata_sends (host : Host) (artist title album : string) (h : History) :
  lookupSends host (metadataRequest artist title album)
    [EvLog LogInfo "ListenBrainz metadata request: %s"
           [ArgS (metadataPayload artist title album)]]
    (trySpotifyFromMetadata host artist title album h) h.
Proof.
  unfold lookupSends, trySpotifyFromMetadata. cbv zeta.
  rewrite bind_run, Log_run. cbn [fst snd].
  rewrite bind_run. unfold Send at 1 2, call. cbn [fst snd].
  fold (metadataRequest artist title album).
  generalize (h ++ [EvLog LogInfo "ListenBrainz metadata request: %s"
                         [ArgS (metadataPayload artist title album)]])%list.
  intros h0.
  destruct (pdk_Send host h0 (metadataRequest artist title album)) as [status body].
  cbn [fst snd].
  destruct (status_ok status); cbn [negb].
  - rewrite bind_run, Log_run. cbn [fst snd]. rewrite bind_run.
    destruct (String.eqb (parseSpotifyID body) "").
    + rewrite Log_run. cbn [fst snd]. unfold ret. rewrite <- !app_assoc.
      eexists. split; reflexivity.
    + unfold ret. cbn [fst snd]. rewrite <- !app_assoc. eexists. split; reflexivity.
  - rewrite bind_run, Log_run. cbn [fst snd]. unfold ret. rewrite <- app_assoc.
    eexists. split; reflexivity.
Qed.

Lemma resolveSpotifyURL_miss (host : Host) (track : TrackInfo) (h : History) :
  cacheHit (host_CacheGetString host h (trackCacheKey track)) = false ->
  resolveSpotifyURL host track h
  = resolveMiss host track (h ++ [cacheRead host track h])%list.
Proof.
  intros Hmiss. unfold resolveSpotifyURL, bind, CacheGetString, call. cbv zeta.
  fold (trackCacheKey track). rewrite Hmiss. reflexivity.
Qed.



Lemma resolveSpotifyURL_cache_hit_witness :
  exists t,
    resolveSpotifyURL (tableHost cached123) karmaPolice []
    = ("https://open.spotify.com/track/cached123", t)
    /\ forallb (fun e => negb (isLookup e) && negb (isCacheWrite e)) t = true.
Proof.
  destruct (proj1 (resolveSpotifyURL_cache_hit (tableHost cached123) karmaPolice [])
              "https://open.spotify.com/track/cached123" eq_refl)
    as (t & Hrun & _ & Hquiet).
  exists t. split; [exact Hrun | exact Hquiet].
Defined.

(** The scenarios of [spotify_test.go], run. *)
Example resolve_by_metadata :
  fst (resolveSpotifyURL (tableHost onlyMetadata) karmaPolice [])
  = "https://open.spotify.com/track/meta456"
  /\ List.filter isCacheWrite (snd (resolveSpotifyURL (tableHost onlyMetadata) karmaPolice []))
     = [EvCacheSetString (trackCacheKey karmaPolice)
          "https://open.spotify.com/track/meta456" spotifyCacheTTLHit None]
  /\ map (fun e => match e with EvHTTPSend r _ _ => rq_URL r | _ => "" end)
       (List.filter isLookup (snd (resolveSpotifyURL (tableHost onlyMetadata) karmaPoliceMBID [])))
     = [mbidURL; metadataURL].
Proof. vm_compute. repeat split. Qed.

Example resolve_by_identifier :
  fst (resolveSpotifyURL (tableHost onlyIdentifier) karmaPoliceMBID [])
  = "https://open.spotify.com/track/track123"
  /\ List.filter (fun e => isCacheWrite e || isLookup e)
       (snd (resolveSpotifyURL (tableHost onlyIdentifier) karmaPoliceMBID []))
     = [EvHTTPSend (mbidRequest "mbid-123") 200
          ("[{" ++ q "spotify_track_ids" ++ ":[" ++ q "track123" ++ "]}]");
        EvCacheSetString (trackCacheKey karmaPoliceMBID)
          "https://open.spotify.com/track/track123" spotifyCacheTTLHit None].
Proof. vm_compute. split; reflexivity. Qed.

Example resolve_with_structured_artist :
  primaryArtist someSong = "Fallback Artist"
  /\ fst (resolveSpotifyURL (tableHost onlyMetadata) someSong [])
     = "https://open.spotify.com/track/meta456"
  /\ map (fun e => match e with EvHTTPSend r _ _ => rq_Body r | _ => "" end)
       (List.filter isLookup (snd (resolveSpotifyURL (tableHost onlyMetadata) someSong [])))
     = ["[{" ++ q "artist_name" ++ ":" ++ q "Fallback Artist" ++ ","
             ++ q "track_name" ++ ":" ++ q "Some Song" ++ ","
             ++ q "release_name" ++ ":" ++ q "Some Album" ++ "}]"].
Proof. vm_compute. repeat split. Qed.

Example resolve_by_search :
  resolveSpotifyURL
    (tableHost (MkTables discordConfig cacheEmpty httpDown None None None 0)) karmaPolice []
  = ("https://open.spotify.com/search/Radiohead%20Karma%20Police",
     [EvCacheGetString (trackCacheKey karmaPolice) "" false None;
      resolvingLog karmaPolice;
      noIdentifierLog;
      metadataRequestLog "Radiohead" "Karma Police" "OK Computer";
      EvHTTPSend (metadataRequest "Radiohead" "Karma Police" "OK Computer") 503 "";
      EvLog LogInfo "ListenBrainz metadata lookup failed: HTTP %d, body=%s"
            [ArgZ 503; ArgS ""];
      EvCacheSetString (trackCacheKey karmaPolice)
        "https://open.spotify.com/search/Radiohead%20Karma%20Police" spotifyCacheTTLMiss None;
      fallbackLog karmaPolice "https://open.spotify.com/search/Radiohead%20Karma%20Police"]).
Proof. vm_compute. reflexivity. Qed.

(** *** Which events a computation can add *)

Lemma emits_ret {A : Type} (P : Event -> bool) (a : A) : emits P (ret a).
Proof. intros h. exists []. now rewrite app_nil_r. Qed.

Lemma emits_bind {A B : Type} (P : Event -> bool) (m : M A) (k : A -> M B) :
  emits P m -> (forall a, emits P (k a)) -> emits P (bind m k).
Proof.
  intros Hm Hk h. rewrite bind_run.
  destruct (Hm h) as (t1 & E1 & P1).
  destruct (Hk (fst (m h)) (snd (m h))) as (t2 & E2 & P2).
  exists (t1 ++ t2)%list. rewrite E2, E1, <- app_assoc. split; [reflexivity|].
  rewrite forallb_app, P1, P2. reflexivity.
Qed.

Lemma emits_call {A : Type} (P : Event -> bool) (answer : History -> A) (ev : A -> Event) :
  (forall a, P (ev a) = true) -> emits P (call answer ev).
Proof. intros H h. exists [ev (answer h)]. simpl. now rewrite H. Qed.

Lemma emits_weaken {A : Type} (P Q : Event -> bool) (m : M A) :
  (forall e, P e = true -> Q e = true) -> emits P m -> emits Q m.
Proof.
  intros HPQ Hm h. destruct (Hm h) as (t & E & Ht). exists t. split; [exact E|].
  rewrite forallb_forall in *. auto.
Qed.

Ltac emits_step :=
  first
    [ apply emits_ret
    | apply emits_call; intros; reflexivity
    | apply emits_bind; [|intros ?]
    | match goal with
      | |- emits _ (if ?b then _ else _) => destruct b
      | |- emits _ (match ?x with _ => _ end) => destruct x
      | |- emits _ (let '(_, _) := ?x in _) => destruct x
      end ].

Ltac emits_auto := cbv zeta; repeat emits_step.

Lemma getConfig_emits (host : Host) : emits isConfigEvent (getConfig host).
Proof. unfold getConfig, GetConfig, Log. emits_auto. Qed.

Lemma trySpotifyFromMBID_emits (host : Host) (mbid : string) :
  emits isResolverEvent (trySpotifyFromMBID host mbid).
Proof. unfold trySpotifyFromMBID, Send, Log. emits_auto. Qed.

Lemma trySpotifyFromMetadata_emits (host : Host) (artist title album : string) :
  emits isResolverEvent (trySpotifyFromMetadata host artist title album).
Proof. unfold trySpotifyFromMetadata, Send, Log. emits_auto. Qed.

Lemma resolveSpotifyURL_emits (host : Host) (track : TrackInfo) :
  emits isResolverEvent (resolveSpotifyURL host track).
Proof.
  assert (Hs : emits isResolverEvent (searchFallback host track))
    by (unfold searchFallback, CacheSetString, Log; emits_auto).
  assert (Hm : emits isResolverEvent (metadataLookup host track)).
  { unfold metadataLookup. cbv zeta.
    destruct (_ && _); [|exact Hs].
    apply emits_bind; [apply trySpotifyFromMetadata_emits|].
    intros id. destruct (negb _); [|exact Hs].
    unfold CacheSetString, Log. emits_auto. }
  unfold resolveSpotifyURL. cbv zeta.
  apply emits_bind; [unfold CacheGetString; emits_auto|].
  intros got. destruct (cacheHit got); [unfold Log; emits_auto|].
  unfold resolveMiss. cbv zeta.
  apply emits_bind; [unfold Log; emits_auto|]. intros _.
  destruct (negb _).
  - apply emits_bind; [apply trySpotifyFromMBID_emits|].
    intros id. destruct (negb _).
    + unfold CacheSetString, Log. emits_auto.
    + apply emits_bind; [unfold Log; emits_auto | intros _; exact Hm].
  - apply emits_bind; [unfold Log; emits_auto | intros _; exact Hm].
Qed.

Lemma getConfig_no_error (host : Host) (h : History) :
  snd (fst (getConfig host h)) = None.
Proof.
  unfold getConfig. rewrite bind_run.
  destruct (fst (GetConfig host clientIDKey h)) as [clientID ok].
  destruct (negb ok || String.eqb clientID ""); [reflexivity|].
  rewrite bind_run.
  destruct (fst (GetConfig host usersKey _)) as [usersJSON ok'].
  destruct (negb ok' || String.eqb usersJSON ""); [reflexivity|].
  destruct (unmarshalUsers usersJSON) as [userTokens|]; [|reflexivity].
  destruct (length userTokens =? 0)%nat; [reflexivity|].
  destruct (size (buildUsers userTokens) =? 0)%nat; reflexivity.
Qed.

(** ** The presence update *)

Lemma resolver_event_quiet (e : Event) : isResolverEvent e = true -> isQuiet e = true.
Proof. destruct e; simpl; intros H; try reflexivity; discriminate H. Qed.

Lemma config_event_quiet (e : Event) : isConfigEvent e = true -> isQuiet e = true.
Proof. destruct e; simpl; intros H; try reflexivity; discriminate H. Qed.

Lemma buildActivity_emits (host : Host) (clientID : string) (input : NowPlayingRequest) :
  emits isQuiet (buildActivity host clientID input).
Proof.
  unfold buildActivity. cbv zeta.
  apply emits_bind; [unfold Now; emits_auto | intros now].
  apply emits_bind; [unfold GetConfig; emits_auto | intros opt1].
  apply emits_bind; [unfold GetConfig; emits_auto | intros opt2].
  apply emits_bind; [unfold getImageURL; emits_auto | intros img].
  apply emits_bind; [|intros url; apply emits_ret].
  eapply emits_weaken; [apply resolver_event_quiet | apply resolveSpotifyURL_emits].
Qed.

Lemma connect_run (host : Host) (username token : string) (h : History) :
  connect host username token h
  = (rpc_connect host h username token,
     (h ++ [EvConnect username token (rpc_connect host h username token)])%list).
Proof. reflexivity. Qed.

Lemma SchedulerCancelSchedule_run (host : Host) (id : string) (h : History) :
  SchedulerCancelSchedule host id h
  = (host_SchedulerCancelSchedule host h id,
     (h ++ [EvCancelSchedule id (host_SchedulerCancelSchedule host h id)])%list).
Proof. reflexivity. Qed.

Lemma sendActivity_run (host : Host) (clientID username token : string) (a : activity)
    (h : History) :
  sendActivity host clientID username token a h
  = (rpc_sendActivity host h clientID username token a,
     (h ++ [EvSendActivity clientID username token a
              (rpc_sendActivity host h clientID username token a)])%list).
Proof. reflexivity. Qed.

Lemma SchedulerScheduleOneTime_run (host : Host) (delay : Z) (payload id : string)
    (h : History) :
  SchedulerScheduleOneTime host delay payload id h
  = (host_SchedulerScheduleOneTime host h delay payload id,
     (h ++ [EvScheduleOneTime delay payload id
              (fst (host_SchedulerScheduleOneTime host h delay payload id))
              (snd (host_SchedulerScheduleOneTime host h delay payload id))])%list).
Proof. reflexivity. Qed.

(** The four ways a call of [NowPlaying] can go, with the events of each. *)
Lemma NowPlaying_cases (host : Host) (input : NowPlayingRequest) (h : History) :
  let u := np_Username input in
  let id := clearScheduleID u in
  exists clientID tC,
    let hC := (h ++ presenceLog input :: tC)%list in
    forallb isConfigEvent tC = true /\
    match configuredUsers host input h !! u with
    | None =>
        NowPlaying host input h
        = (Some (Wrap ScrobblerErrorNotAuthorized ("user '" ++ u ++ "' not authorized")), hC)
    | Some token =>
        match rpc_connect host hC u token with
        | Some e =>
            NowPlaying host input h
            = (Some (Wrap ScrobblerErrorRetryLater ("failed to connect to Discord: " ++ e)),
               (hC ++ [EvConnect u token (Some e)])%list)
        | None =>
            exists cancelled mid a,
              let hA := (hC ++ EvConnect u token None :: EvCancelSchedule id cancelled :: mid)%list in
              forallb isQuiet mid = true /\
              match rpc_sendActivity host hA clientID u token a with
              | Some e =>
                  NowPlaying host input h
                  = (Some (Wrap ScrobblerErrorRetryLater ("failed to send activity: " ++ e)),
                     (hA ++ [EvSendActivity clientID u token a (Some e)])%list)
              | None =>
                  exists handle err,
                    NowPlaying host input h
                    = (None,
                       (hA ++ EvSendActivity clientID u token a None
                           :: EvScheduleOneTime (remainingSeconds input) payloadClearActivity
                                id handle err
                           :: scheduleFailureLog err)%list)
              end
        end
    end.
Proof.
  cbv zeta. unfold configuredUsers, NowPlaying.
  rewrite bind_run, Log_run. cbn [fst snd]. fold (presenceLog input).
  rewrite bind_run.
  pose proof (getConfig_no_error host (h ++ [presenceLog input])%list) as Herr.
  destruct (getConfig_emits host (h ++ [presenceLog input])%list) as (tC & EhC & HtC).
  destruct (getConfig host (h ++ [presenceLog input])%list) as [[[clientID users] err] hC].
  cbn [fst snd] in *. subst err hC. rewrite <- app_assoc. cbn [app].
  exists clientID, tC. split; [exact HtC|].
  generalize (h ++ presenceLog input :: tC)%list. intros hC.
  destruct (users !! np_Username input) as [token|]; [|reflexivity].
  rewrite bind_run, connect_run. cbn [fst snd].
  destruct (rpc_connect host hC (np_Username input) token) as [e|]; [reflexivity|].
  rewrite bind_run, SchedulerCancelSchedule_run. cbn [fst snd].
  rewrite bind_run, app_two.
  generalize (host_SchedulerCancelSchedule host
                (hC ++ [EvConnect (np_Username input) token None])%list
                (clearScheduleID (np_Username input))).
  intros cancelled.
  match goal with
  | |- context [buildActivity host clientID input ?hB] =>
      destruct (buildActivity_emits host clientID input hB) as (mid & EhA & Hmid);
      destruct (buildActivity host clientID input hB) as [a hA]
  end.
  cbn [fst snd] in *. subst hA. rewrite <- !app_assoc. cbn [app].
  exists cancelled, mid, a. split; [exact Hmid|].
  rewrite bind_run, sendActivity_run. cbn [fst snd].
  destruct (rpc_sendActivity host _ clientID (np_Username input) token a) as [e|];
    [reflexivity|].
  rewrite bind_run, SchedulerScheduleOneTime_run. cbn [fst snd].
  match goal with
  | |- context [host_SchedulerScheduleOneTime ?H ?hh ?d ?p ?i] =>
      destruct (host_SchedulerScheduleOneTime H hh d p i) as [handle err]
  end.
  exists handle, err. cbn [fst snd]. destruct err as [e|].
  - rewrite bind_run, Log_run. unfold ret. cbn [fst snd scheduleFailureLog].
    rewrite <- !app_assoc. reflexivity.
  - unfold ret. cbn [scheduleFailureLog]. rewrite <- !app_assoc. reflexivity.
Qed.

Lemma In_kind (P : Event -> bool) (l : list Event) (e : Event) :
  forallb P l = true -> In e l -> P e = true.
Proof. intros H Hin. rewrite forallb_forall in H. auto. Qed.

Lemma filter_none (P Q : Event -> bool) (l : list Event) :
  (forall e, P e = true -> Q e = false) -> forallb P l = true -> List.filter Q l = [].
Proof.
  intros HPQ. induction l as [|e l IH]; simpl; [reflexivity|].
  intros H. apply andb_true_iff in H as [He Hl]. rewrite (HPQ e He). auto.
Qed.

Ltac in_cases H :=
  repeat first
    [ apply in_app_or in H as [H|H]
    | progress cbn [In] in H
    | destruct H as [H|H]
    | contradiction H ].

Lemma pending_app (registered : gset string) (t1 t2 : list Event) :
  pending registered (t1 ++ t2) = pending (pending registered t1) t2.
Proof. apply fold_left_app. Qed.

Lemma pending_no_scheduler (registered : gset string) (t : list Event) :
  forallb notScheduler t = true -> pending registered t = registered.
Proof.
  induction t as [|e t IH]; simpl; [reflexivity|].
  intros H. apply andb_true_iff in H as [He Ht].
  unfold pending in *. simpl. rewrite <- (IH Ht) at 2.
  f_equal. destruct e; try reflexivity; discriminate He.
Qed.

Lemma quiet_no_scheduler (t : list Event) :
  forallb isQuiet t = true -> forallb notScheduler t = true.
Proof.
  rewrite !forallb_forall. intros H e He. specialize (H e He).
  unfold isQuiet in H. now apply andb_true_iff in H as [_ H].
Qed.

Example users_of_discordConfig :
  configuredUsers (tableHost onlyMetadata) bobListens [] !! "alice" = Some "token-a"
  /\ configuredUsers (tableHost onlyMetadata) bobListens [] !! "bob" = None.
Proof. vm_compute. split; reflexivity. Qed.

(** C7.  When the username is not in the configured user-to-token
    mapping, [NowPlaying] returns the not-authorized error, and the run
    consists of log lines and configuration reads only: no [connect], no
    [sendActivity], no cancel and no schedule.  The transport events and the
    scheduler events of the history are the same after the call as before. *)
Theorem NowPlaying_not_authorized (host : Host) (input : NowPlayingRequest) (h : History) :
  configuredUsers host input h !! np_Username input = None ->
  exists t,
    NowPlaying host input h
    = (Some (Wrap ScrobblerErrorNotAuthorized
               ("user '" ++ np_Username input ++ "' not authorized")),
       (h ++ t)%list)
    /\ forallb isConfigEvent t = true
    /\ forallb isQuiet t = true
    /\ List.filter isTransport (h ++ t)%list = List.filter isTransport h
    /\ List.filter isScheduler (h ++ t)%list = List.filter isScheduler h
    /\ (forall registered, pending registered t = registered).
Proof.
  intros Hnone.
  destruct (NowPlaying_cases host input h) as (clientID & tC & HtC & Hcase).
  cbv zeta in Hcase. rewrite Hnone in Hcase.
  exists (presenceLog input :: tC).
  assert (Hcfg : forallb isConfigEvent (presenceLog input :: tC) = true)
    by (simpl; exact HtC).
  assert (Hquiet : forallb isQuiet (presenceLog input :: tC) = true).
  { rewrite forallb_forall in *. intros e He. apply config_event_quiet. auto. }
  split; [exact Hcase|]. split; [exact Hcfg|]. split; [exact Hquiet|].
  split; [|split].
  - rewrite List.filter_app, (filter_none isConfigEvent isTransport (presenceLog input :: tC));
      [now rewrite app_nil_r | | exact Hcfg].
    intros [] He; try reflexivity; discriminate He.
  - rewrite List.filter_app, (filter_none isConfigEvent isScheduler (presenceLog input :: tC));
      [now rewrite app_nil_r | | exact Hcfg].
    intros [] He; try reflexivity; discriminate He.
  - intros registered. apply pending_no_scheduler, quiet_no_scheduler, Hquiet.
Qed.

Lemma NowPlaying_not_authorized_witness :
  exists t,
    NowPlaying (tableHost onlyMetadata) bobListens []
    = (Some (Wrap ScrobblerErrorNotAuthorized "user 'bob' not authorized"), t)
    /\ forallb isQuiet t = true.
Proof.
  destruct (NowPlaying_not_authorized (tableHost onlyMetadata) bobListens [])
    as (t & Hrun & _ & Hquiet & _).
  - vm_compute. reflexivity.
  - exists t. split; [exact Hrun | exact Hquiet].
Defined.

(** ** The authorization check *)

Lemma GetConfig_run (host : Host) (key : string) (h : History) :
  GetConfig host key h
  = (pdk_GetConfig host h key,
     (h ++ [EvGetConfig key (fst (pdk_GetConfig host h key))
                        (snd (pdk_GetConfig host h key))])%list).
Proof. reflexivity. Qed.

Lemma IsAuthorized_run (host : Host) (input : IsAuthorizedRequest) (h : History) :
  IsAuthorized host input h
  = let users := snd (fst (fst (getConfig host h))) in
    let authorized := bool_decide (is_Some (users !! ia_Username input)) in
    ((authorized, None),
     (snd (getConfig host h)
        ++ [EvLog LogInfo "IsAuthorized for user %s: %v"
                  [ArgS (ia_Username input); ArgB authorized]])%list).
Proof.
  unfold IsAuthorized. rewrite bind_run.
  pose proof (getConfig_no_error host h) as Herr.
  destruct (getConfig host h) as [[[clientID users] err] hC].
  cbn [fst snd] in *. subst err. reflexivity.
Qed.

(** C9, the claim as stated fails: with a client id and the users value
    [not json], loading the users fails ([json.Unmarshal] returns an error),
    and [IsAuthorized] answers [false] with a nil error. *)
Lemma IsAuthorized_malformed_users_no_error :
  unmarshalUsers "not json" = None
  /\ fst (IsAuthorized (tableHost brokenUsers) (MkIsAuthorizedRequest "alice") [])
     = (false, None).
Proof. vm_compute. split; reflexivity. Qed.

(** C9, amended.  [IsAuthorized] never returns an error (and, being a
    total function, never panics): it answers whether the username is in the
    mapping that [getConfig] returns.  When the stored users value does not
    parse, [getConfig] logs the failure at error level and returns no users,
    so [IsAuthorized] answers [false] with a nil error. *)
Theorem IsAuthorized_no_error (host : Host) (input : IsAuthorizedRequest) (h : History) :
  fst (IsAuthorized host input h)
  = (bool_decide (is_Some (snd (fst (fst (getConfig host h))) !! ia_Username input)), None)
  /\ (forall clientID usersJSON,
        pdk_GetConfig host h clientIDKey = (clientID, true) -> clientID <> "" ->
        pdk_GetConfig host (h ++ [EvGetConfig clientIDKey clientID true])%list usersKey
        = (usersJSON, true) ->
        usersJSON <> "" ->
        unmarshalUsers usersJSON = None ->
        IsAuthorized host input h
        = ((false, None),
           (h ++ [EvGetConfig clientIDKey clientID true;
                  EvGetConfig usersKey usersJSON true;
                  EvLog LogError "failed to parse users config: %v" [ArgJSONError];
                  EvLog LogInfo "IsAuthorized for user %s: %v"
                        [ArgS (ia_Username input); ArgB false]])%list)).
Proof.
  split; [now rewrite IsAuthorized_run|].
  intros clientID usersJSON Hc Hcne Hu Hune Hbad.
  assert (Hcfg : getConfig host h
                 = ((clientID, ∅, None),
                    (h ++ [EvGetConfig clientIDKey clientID true;
                           EvGetConfig usersKey usersJSON true;
                           EvLog LogError "failed to parse users config: %v"
                                 [ArgJSONError]])%list)).
  { unfold getConfig. rewrite bind_run, GetConfig_run, Hc. cbn [fst snd negb orb].
    apply String.eqb_neq in Hcne. rewrite Hcne.
    rewrite bind_run, GetConfig_run, Hu. cbn [fst snd negb orb].
    apply String.eqb_neq in Hune. rewrite Hune. rewrite Hbad.
    rewrite bind_run, Log_run. unfold ret. cbn [fst snd].
    rewrite <- !app_assoc. reflexivity. }
  rewrite IsAuthorized_run, Hcfg. cbn [fst snd]. rewrite <- app_assoc. reflexivity.
Qed.

Lemma IsAuthorized_no_error_witness :
  IsAuthorized (tableHost brokenUsers) (MkIsAuthorizedRequest "alice") []
  = ((false, None),
     [EvGetConfig clientIDKey "client-1" true;
      EvGetConfig usersKey "not json" true;
      EvLog LogError "failed to parse users config: %v" [ArgJSONError];
      EvLog LogInfo "IsAuthorized for user %s: %v" [ArgS "alice"; ArgB false]]).
Proof.
  apply (proj2 (IsAuthorized_no_error (tableHost brokenUsers)
                  (MkIsAuthorizedRequest "alice") []) "client-1" "not json");
    first [reflexivity | discriminate | (vm_compute; reflexivity)].
Defined.

(** ** The clear schedule *)




(** A run in which [sendActivity] was called went through the connect and
    the cancel, and ended right after the send when the send failed, and
    with the scheduling call when it succeeded. *)
Lemma NowPlaying_sent (host : Host) (input : NowPlayingRequest) (h t : History)
    (answer : option error) :
  snd (NowPlaying host input h) = (h ++ t)%list ->
  sentWith answer t ->
  exists body,
    reachedSend input answer body /\
    match answer with
    | Some e =>
        NowPlaying host input h
        = (Some (Wrap ScrobblerErrorRetryLater ("failed to send activity: " ++ e)),
           (h ++ body)%list)
    | None =>
        exists handle err,
          NowPlaying host input h
          = (None,
             (h ++ body
                ++ EvScheduleOneTime (remainingSeconds input) payloadClearActivity
                     (clearScheduleID (np_Username input)) handle err
                :: scheduleFailureLog err)%list)
    end.
Proof.
  intros Ht (c & u & tok & a' & Hin).
  destruct (NowPlaying_cases host input h) as (clientID & tC & HtC & Hcase).
  cbv zeta in Hcase.
  assert (Hquiet : forallb isQuiet tC = true).
  { rewrite forallb_forall in *. intros e He. apply config_event_quiet. auto. }
  destruct (configuredUsers host input h !! np_Username input) as [token|].
  2: { exfalso. rewrite Hcase in Ht. cbn [snd] in Ht. apply app_inv_head in Ht. subst t.
       in_cases Hin; try discriminate Hin.
       apply (In_kind _ _ _ Hquiet) in Hin. discriminate Hin. }
  destruct (rpc_connect host _ (np_Username input) token) as [e|].
  { exfalso. rewrite Hcase in Ht. cbn [snd] in Ht. rewrite <- app_assoc in Ht.
    apply app_inv_head in Ht. subst t.
    in_cases Hin; try discriminate Hin.
    apply (In_kind _ _ _ Hquiet) in Hin. discriminate Hin. }
  destruct Hcase as (cancelled & mid & a & Hmid & Hcase).
  assert (Hshape : reachedSend input
            (rpc_sendActivity host
               (h ++ presenceLog input :: tC ++ EvConnect (np_Username input) token None
                  :: EvCancelSchedule (clearScheduleID (np_Username input)) cancelled :: mid)%list
               clientID (np_Username input) token a)
            ((presenceLog input :: tC ++ [EvConnect (np_Username input) token None])
               ++ EvCancelSchedule (clearScheduleID (np_Username input)) cancelled
               :: mid ++ [EvSendActivity clientID (np_Username input) token a
                            (rpc_sendActivity host
                               (h ++ presenceLog input :: tC
                                  ++ EvConnect (np_Username input) token None
                                  :: EvCancelSchedule (clearScheduleID (np_Username input))
                                       cancelled :: mid)%list
                               clientID (np_Username input) token a)])%list).
  { exists (presenceLog input :: tC ++ [EvConnect (np_Username input) token None])%list,
           cancelled, mid, clientID, token, a.
    split; [reflexivity|]. split; [|exact Hmid].
    cbn [forallb]. rewrite forallb_app. cbn.
    rewrite andb_true_r. rewrite forallb_forall in *. intros e He.
    specialize (Hquiet e He). unfold isQuiet in Hquiet.
    apply andb_true_iff in Hquiet as [_ Hs]. exact Hs. }
  revert Hcase Hshape.
  replace ((h ++ presenceLog input :: tC) ++ EvConnect (np_Username input) token None
             :: EvCancelSchedule (clearScheduleID (np_Username input)) cancelled :: mid)%list
    with (h ++ presenceLog input :: tC ++ EvConnect (np_Username input) token None
            :: EvCancelSchedule (clearScheduleID (np_Username input)) cancelled :: mid)%list
    by (now rewrite <- app_assoc).
  generalize (rpc_sendActivity host
                (h ++ presenceLog input :: tC ++ EvConnect (np_Username input) token None
                   :: EvCancelSchedule (clearScheduleID (np_Username input)) cancelled :: mid)%list
                clientID (np_Username input) token a).
  intros sendAnswer Hcase Hshape.
  assert (Hans : sendAnswer = answer).
  { destruct sendAnswer as [e|].
    - rewrite Hcase in Ht. cbn [snd] in Ht. rewrite <- !app_assoc in Ht.
      apply app_inv_head in Ht. subst t. cbn [app] in Hin.
      in_cases Hin; try discriminate Hin;
        try (apply (In_kind _ _ _ Hquiet) in Hin; discriminate Hin);
        try (apply (In_kind _ _ _ Hmid) in Hin; discriminate Hin).
      now injection Hin.
    - destruct Hcase as (handle & err & Hcase).
      rewrite Hcase in Ht. cbn [snd] in Ht. rewrite <- !app_assoc in Ht.
      apply app_inv_head in Ht. subst t. cbn [app] in Hin.
      destruct err; cbn [scheduleFailureLog] in Hin;
        in_cases Hin; try discriminate Hin;
        try (apply (In_kind _ _ _ Hquiet) in Hin; discriminate Hin);
        try (apply (In_kind _ _ _ Hmid) in Hin; discriminate Hin);
        now injection Hin. }
  subst sendAnswer. eexists. split; [exact Hshape|].
  destruct answer as [e|].
  - rewrite Hcase. f_equal. rewrite <- !app_assoc. cbn [app]. now rewrite <- !app_assoc.
  - destruct Hcase as (handle & err & Hcase). exists handle, err.
    rewrite Hcase. f_equal. rewrite <- !app_assoc. cbn [app]. now rewrite <- !app_assoc.
Qed.


(** The scenario of the specification: position 30, duration 200. *)
Example NowPlaying_175 :
  fst (NowPlaying (tableHost onlyMetadata) (aliceListens 200 30) []) = None
  /\ List.filter isScheduler
       (snd (NowPlaying (tableHost onlyMetadata) (aliceListens 200 30) []))
     = [EvCancelSchedule "alice-clear" None;
        EvScheduleOneTime 175 payloadClearActivity "alice-clear" "alice-clear" None].
Proof. vm_compute. split; reflexivity. Qed.

Example NowPlaying_schedule_failure_is_logged :
  fst (NowPlaying (tableHost scheduleFails) (aliceListens 200 30) []) = None
  /\ List.last (snd (NowPlaying (tableHost scheduleFails) (aliceListens 200 30) [])) (EvNow 0)
     = EvLog LogWarn "Failed to schedule completion timer: %v" [ArgS "scheduler down"].
Proof. vm_compute. split; reflexivity. Qed.





(** * Further properties of the code *)

(** ** White space *)








Lemma TrimSpace_empty : Str.TrimSpace "" = "".
Proof. reflexivity. Qed.

(** ** More on the artist-name parser *)











Lemma HasPrefix_empty (s : string) : Str.HasPrefix s "" = true.
Proof. destruct s; reflexivity. Qed.

Lemma HasPrefix_refl (s : string) : Str.HasPrefix s s = true.
Proof. induction s as [|c r IH]; simpl; [reflexivity|]. now rewrite Ascii.eqb_refl. Qed.

Lemma HasPrefix_app (s p : string) :
  Str.HasPrefix s p = true <-> exists rest, s = p ++ rest.
Proof.
  revert s. induction p as [|a p IH]; intros s.
  - rewrite HasPrefix_empty. split; [intros _; now exists s | reflexivity].
  - destruct s as [|b s]; simpl.
    + split; [discriminate | intros [rest E]; discriminate E].
    + destruct (Ascii.eqb_spec a b) as [->|Hab].
      * rewrite IH. split; intros [rest E]; exists rest.
        -- now rewrite E.
        -- now injection E.
      * split; [discriminate | intros [rest E]; injection E; congruence].
Qed.

Lemma slice_to_from (i : nat) (s : string) : Str.slice_to i s ++ Str.slice_from i s = s.
Proof.
  revert s. induction i as [|i IH]; intros [|c r]; try reflexivity.
  change (String c (Str.slice_to i r ++ Str.slice_from i r) = String c r).
  now rewrite IH.
Qed.

Lemma append_cons (c : ascii) (a b : string) : String c a ++ b = String c (a ++ b).
Proof. reflexivity. Qed.




Lemma string_app_assoc (a b c : string) : (a ++ b) ++ c = a ++ (b ++ c).
Proof. induction a as [|x a IH]; [reflexivity|]. now rewrite !append_cons, IH. Qed.






(** ** Letter case *)


















(** ** The shape of a cache key *)

Lemma block_length (h blk : list Z) : length (Sha256.block h blk) = 8%nat.
Proof. reflexivity. Qed.

Lemma blocks_length (fuel : nat) (h l : list Z) :
  length h = 8%nat -> length (Sha256.blocks fuel h l) = 8%nat.
Proof.
  revert h l. induction fuel as [|f IH]; intros h l Hh; simpl; [exact Hh|].
  destruct l; [exact Hh|]. apply IH, block_length.
Qed.

Lemma Sum256_length (msg : list Z) : length (Sha256.Sum256 msg) = 32%nat.
Proof.
  unfold Sha256.Sum256. cbv zeta.
  pose proof (blocks_length (length (Sha256.pad msg)) Sha256.H0 (Sha256.pad msg) eq_refl) as H.
  destruct (Sha256.blocks _ _ _) as [|a [|b [|c [|d [|e [|f [|g [|i [|]]]]]]]]];
    try discriminate H.
  reflexivity.
Qed.

Lemma hex_digit_lower (v : Z) : 0 <= v < 16 -> is_lower_hex (Hex.digit v) = true.
Proof.
  intros H. unfold is_lower_hex, Hex.digit.
  destruct (Z.ltb_spec v 10); rewrite byte_val_of, Z.mod_small by lia; cbv zeta; lia.
Qed.

Lemma EncodeToString_shape (l : list Z) :
  Forall is_byte l ->
  String.length (Hex.EncodeToString l) = (2 * length l)%nat
  /\ all_bytes is_lower_hex (Hex.EncodeToString l) = true.
Proof.
  induction 1 as [|b l Hb Hl [IHlen IHhex]]; [split; reflexivity|].
  unfold is_byte in Hb. simpl. split; [rewrite IHlen; lia|].
  rewrite IHhex, !hex_digit_lower; [reflexivity | apply Z.mod_pos_bound; lia |].
  split; [apply Z.div_pos | apply Z.div_lt_upper_bound]; lia.
Qed.

(** X7.  Every cache key is the tag [spotify.url.] followed by exactly 16
    characters, each one of [0-9a-f], whatever the three strings are. *)
Theorem spotifyCacheKey_format (artist title album : string) :
  exists digest,
    spotifyCacheKey artist title album = "spotify.url." ++ digest
    /\ String.length digest = 16%nat
    /\ all_bytes is_lower_hex digest = true.
Proof.
  unfold spotifyCacheKey. cbv zeta. eexists. split; [reflexivity|].
  destruct (EncodeToString_shape
              (firstn 8 (Sha256.Sum256 (Str.bytes (cacheKeyInput artist title album)))))
    as [Hlen Hhex].
  - apply Forall_take, Sum256_is_byte.
  - split; [|exact Hhex]. rewrite Hlen, length_take, Sum256_length. reflexivity.
Qed.

(** ** Search URLs *)








Lemma byte_val_range (c : ascii) : 0 <= Str.byte_val c < 256.
Proof.
  unfold Str.byte_val. pose proof (N_ascii_bounded c) as H. split; [lia|].
  change 256 with (Z.of_N 256). lia.
Qed.








Lemma byte_val_inj (a b : ascii) : Str.byte_val a = Str.byte_val b -> a = b.
Proof.
  unfold Str.byte_val. intros H. apply N2Z.inj in H.
  rewrite <- (ascii_N_embedding a), <- (ascii_N_embedding b). now rewrite H.
Qed.








(** ** The two lookups *)

Lemma status_ok_range (status : Z) :
  status_ok status = (200 <=? status) && (status <? 300).
Proof. unfold status_ok. lia. Qed.

Lemma calls_logs (logs : list Event) : forallb isLog logs = true -> calls logs = [].
Proof.
  unfold calls. induction logs as [|e logs IH]; [reflexivity|]. simpl.
  intros H. apply andb_true_iff in H as [He Hl]. rewrite He. simpl. auto.
Qed.

Lemma lookupSends_calls (host : Host) (req : HTTPRequest) (before : list Event)
    (r : string * History) (h : History) :
  forallb isLog before = true ->
  lookupSends host req before r h ->
  exists t,
    snd r = (h ++ t)%list
    /\ calls t = [EvHTTPSend req (fst (pdk_Send host (h ++ before)%list req))
                    (snd (pdk_Send host (h ++ before)%list req))]
    /\ fst r = idOfAnswer (pdk_Send host (h ++ before)%list req).
Proof.
  intros Hb (logs & -> & Hlogs). cbn [fst snd].
  exists (before ++ EvHTTPSend req (fst (pdk_Send host (h ++ before)%list req))
                      (snd (pdk_Send host (h ++ before)%list req)) :: logs)%list.
  split; [now rewrite app_assoc|]. split.
  - unfold calls. rewrite List.filter_app. simpl.
    fold (calls before). fold (calls logs).
    now rewrite (calls_logs before Hb), (calls_logs logs Hlogs).
  - unfold idOfAnswer. now rewrite <- status_ok_range.
Qed.

(** X11.  Each lookup makes exactly one call, a POST with the header
    [Content-Type: application/json] to its own endpoint, and nothing else
    but log lines.  It returns the empty string whenever the status is below
    200 or is 300 or more, whatever the body says, and otherwise what
    [parseSpotifyID] reads from the body. *)
Theorem lookups_one_request (host : Host) (h : History) :
  (forall mbid,
      exists t,
        snd (trySpotifyFromMBID host mbid h) = (h ++ t)%list
        /\ calls t = [EvHTTPSend (mbidRequest mbid)
                        (fst (pdk_Send host h (mbidRequest mbid)))
                        (snd (pdk_Send host h (mbidRequest mbid)))]
        /\ fst (trySpotifyFromMBID host mbid h)
           = idOfAnswer (pdk_Send host h (mbidRequest mbid))
        /\ rq_Method (mbidRequest mbid) = "POST"
        /\ rq_URL (mbidRequest mbid)
           = "https://labs.api.listenbrainz.org/spotify-id-from-mbid/json"
        /\ rq_Headers (mbidRequest mbid) = [("Content-Type", "application/json")])
  /\ (forall artist title album,
        let req := metadataRequest artist title album in
        let h0 := (h ++ [metadataRequestLog artist title album])%list in
        exists t,
          snd (trySpotifyFromMetadata host artist title album h) = (h ++ t)%list
          /\ calls t = [EvHTTPSend req (fst (pdk_Send host h0 req)) (snd (pdk_Send host h0 req))]
          /\ fst (trySpotifyFromMetadata host artist title album h)
             = idOfAnswer (pdk_Send host h0 req)
          /\ rq_Method req = "POST"
          /\ rq_URL req = "https://labs.api.listenbrainz.org/spotify-id-from-metadata/json"
          /\ rq_Headers req = [("Content-Type", "application/json")]).
Proof.
  split.
  - intros mbid.
    destruct (lookupSends_calls host (mbidRequest mbid) [] _ h eq_refl
                (trySpotifyFromMBID_sends host mbid h)) as (t & Ht & Hc & Hid).
    rewrite app_nil_r in Hc, Hid. exists t. repeat split; assumption.
  - intros artist title album req h0.
    destruct (lookupSends_calls host req [metadataRequestLog artist title album] _ h eq_refl
                (trySpotifyFromMetadata_sends host artist title album h))
      as (t & Ht & Hc & Hid).
    exists t. repeat split; assumption.
Qed.

(** ** More on the response scan *)

Lemma firstID_some (ids : list string) (id : string) :
  firstID ids = Some id -> firstNonEmpty ids id.
Proof.
  induction ids as [|x ids IH]; simpl; [discriminate|].
  destruct (String.eqb_spec x "") as [->|Hx]; simpl.
  - intros H. destruct (IH H) as (pre & post & -> & Hpre & Hid).
    exists ("" :: pre), post. split; [reflexivity|]. split; [|exact Hid].
    now constructor.
  - intros H. injection H as ->. exists [], ids. split; [reflexivity|]. split; [constructor|auto].
Qed.

Lemma firstID_none (ids : list string) : firstID ids = None -> Forall (eq "") ids.
Proof.
  induction ids as [|x ids IH]; simpl; [constructor|].
  destruct (String.eqb_spec x "") as [->|Hx]; simpl; [|discriminate].
  intros H. constructor; auto.
Qed.

Lemma scanResults_sound (results : list listenBrainzResult) :
  scanResults results <> "" -> firstNonEmpty (allIDs results) (scanResults results).
Proof.
  induction results as [|[ids] results IH]; simpl; [congruence|].
  unfold allIDs. simpl. fold (allIDs results).
  destruct (firstID ids) as [id|] eqn:E.
  - intros _. destruct (firstID_some ids id E) as (pre & post & -> & Hpre & Hid).
    exists pre, (post ++ allIDs results)%list. rewrite <- app_assoc. auto.
  - intros H. destruct (IH H) as (pre & post & Eq & Hpre & Hid).
    exists (ids ++ pre)%list, post. rewrite Eq, <- app_assoc. split; [reflexivity|].
    split; [|exact Hid]. apply Forall_app. split; [now apply firstID_none | exact Hpre].
Qed.

(** X12.  A non-empty answer of [parseSpotifyID] is never made up: the
    body then decodes into a list of results, and the answer is the first
    non-empty id of these results in scan order. *)
Theorem parseSpotifyID_sound (body : string) :
  parseSpotifyID body <> "" ->
  exists results,
    unmarshalResults body = Some results
    /\ firstNonEmpty (allIDs results) (parseSpotifyID body)
    /\ In (parseSpotifyID body) (allIDs results).
Proof.
  unfold parseSpotifyID. destruct (unmarshalResults body) as [results|]; [|congruence].
  intros H. exists results. split; [reflexivity|].
  pose proof (scanResults_sound results H) as Hf. split; [exact Hf|].
  destruct Hf as (pre & post & -> & _). apply in_elt.
Qed.

Lemma parseSpotifyID_sound_witness :
  exists results,
    unmarshalResults ("[{" ++ q "spotify_track_ids" ++ ":[" ++ q "abc123" ++ "]}]")
    = Some results
    /\ firstNonEmpty (allIDs results)
         (parseSpotifyID ("[{" ++ q "spotify_track_ids" ++ ":[" ++ q "abc123" ++ "]}]"))
    /\ In (parseSpotifyID ("[{" ++ q "spotify_track_ids" ++ ":[" ++ q "abc123" ++ "]}]"))
          (allIDs results).
Proof. apply parseSpotifyID_sound. vm_compute. discriminate. Defined.

(** ** The request bodies are JSON *)

Lemma byte_of_val (c : ascii) : Str.byte_of (Str.byte_val c) = c.
Proof.
  apply byte_val_inj. rewrite byte_val_of. apply Z.mod_small, byte_val_range.
Qed.

Lemma dquote_cons (rest : string) :
  Strconv.dquote ++ rest = String (Str.byte_of 34) rest.
Proof. reflexivity. Qed.

Lemma parse_string_close (f : nat) (rest : string) :
  Json.parse_string (S f) (String (Str.byte_of 34) rest) = Some ("", rest).
Proof. reflexivity. Qed.

Lemma parse_string_plain_step (f : nat) (c : ascii) (r : string) :
  is_json_plain c = true ->
  Json.parse_string (S f) (String c r)
  = match Json.parse_string f r with
    | Some (t, out) => Some (String c t, out)
    | None => None
    end.
Proof.
  unfold is_json_plain. intros H.
  apply andb_true_iff in H as [H H92]. apply andb_true_iff in H as [H32 H34].
  apply negb_true_iff in H34, H92.
  cbn [Json.parse_string]. unfold Json.bv. rewrite H34, H92.
  destruct (Z.ltb_spec (Str.byte_val c) 32); [lia | reflexivity].
Qed.

Lemma parse_string_escaped_step (f : nat) (c : ascii) (r : string) :
  Str.byte_val c = 34 \/ Str.byte_val c = 92 ->
  Json.parse_string (S f) (String (Str.byte_of 92) (String c r))
  = match Json.parse_string f r with
    | Some (t, out) => Some (String c t, out)
    | None => None
    end.
Proof.
  intros H. cbn [Json.parse_string]. unfold Json.bv.
  change (Str.byte_val (Str.byte_of 92)) with 92. cbn [Z.eqb Pos.eqb].
  assert (H117 : (Str.byte_val c =? 117) = false) by lia. rewrite H117.
  assert (Hs : Json.simple_escape c = Some (Str.byte_val c)).
  { unfold Json.simple_escape, Json.bv. cbv zeta. destruct H as [-> | ->]; reflexivity. }
  rewrite Hs, byte_of_val. reflexivity.
Qed.

Lemma parse_string_plain (s rest : string) (f : nat) :
  all_bytes is_json_plain s = true ->
  (String.length s < f)%nat ->
  Json.parse_string f (s ++ Strconv.dquote ++ rest) = Some (s, rest).
Proof.
  revert f. induction s as [|c r IH]; intros f Hs Hf.
  - destruct f as [|f]; [simpl in Hf; lia|]. apply parse_string_close.
  - destruct f as [|f]; [simpl in Hf; lia|].
    simpl in Hs. apply andb_true_iff in Hs as [Hc Hr].
    rewrite append_cons, (parse_string_plain_step f c _ Hc), IH; [reflexivity|exact Hr|].
    simpl in Hf. lia.
Qed.

Lemma escape_byte_cases (c : ascii) :
  is_printable c = true ->
  (is_json_plain c = true /\ Strconv.escape_byte c = String c "")
  \/ ((Str.byte_val c = 34 \/ Str.byte_val c = 92)
      /\ Strconv.escape_byte c = String (Str.byte_of 92) (String c "")).
Proof.
  unfold is_printable, is_json_plain, Strconv.escape_byte. intros H. cbv zeta.
  destruct (Z.eqb_spec (Str.byte_val c) 34) as [E34|E34];
    [right; split; [auto | reflexivity]|].
  destruct (Z.eqb_spec (Str.byte_val c) 92) as [E92|E92];
    [right; split; [auto | reflexivity]|].
  left. cbn [orb negb]. split; [lia|].
  replace ((32 <=? Str.byte_val c) && negb (Str.byte_val c =? 127)) with true by lia.
  reflexivity.
Qed.

Lemma parse_string_escape (s rest : string) (f : nat) :
  all_bytes is_printable s = true ->
  (String.length s < f)%nat ->
  Json.parse_string f (Strconv.escape s ++ Strconv.dquote ++ rest) = Some (s, rest).
Proof.
  revert f. induction s as [|c r IH]; intros f Hs Hf.
  - destruct f as [|f]; [simpl in Hf; lia|]. apply parse_string_close.
  - destruct f as [|f]; [simpl in Hf; lia|].
    simpl in Hs. apply andb_true_iff in Hs as [Hc Hr].
    assert (Hf' : (String.length r < f)%nat) by (simpl in Hf; lia).
    change (Strconv.escape (String c r)) with (Strconv.escape_byte c ++ Strconv.escape r).
    rewrite string_app_assoc.
    destruct (escape_byte_cases c Hc) as [[Hp ->]|[Hq ->]].
    + rewrite append_cons. change ("" ++ ?x) with x.
      now rewrite (parse_string_plain_step f c _ Hp), (IH f Hr Hf').
    + rewrite !append_cons. change ("" ++ ?x) with x.
      now rewrite (parse_string_escaped_step f c _ Hq), (IH f Hr Hf').
Qed.

Lemma length_append (a b : string) :
  String.length (a ++ b) = (String.length a + String.length b)%nat.
Proof. induction a as [|c a IH]; [reflexivity|]. rewrite append_cons. simpl. now rewrite IH. Qed.

Lemma length_escape (s : string) : (String.length s <= String.length (Strconv.escape s))%nat.
Proof.
  induction s as [|c r IH]; [reflexivity|].
  change (Strconv.escape (String c r)) with (Strconv.escape_byte c ++ Strconv.escape r).
  rewrite length_append. simpl String.length at 1.
  assert (1 <= String.length (Strconv.escape_byte c))%nat; [|lia].
  unfold Strconv.escape_byte. cbv zeta.
  repeat match goal with |- context [if ?b then _ else _] => destruct b end;
    rewrite ?length_append; simpl; lia.
Qed.

Lemma Quote_app (s rest : string) :
  Strconv.Quote s ++ rest
  = String (Str.byte_of 34) (Strconv.escape s ++ Strconv.dquote ++ rest).
Proof. unfold Strconv.Quote. now rewrite !string_app_assoc. Qed.

Lemma quoted_app (s rest : string) :
  q s ++ rest = String (Str.byte_of 34) (s ++ Strconv.dquote ++ rest).
Proof. unfold q, Strconv.quoted. now rewrite !string_app_assoc. Qed.

Lemma parse_value_dquote (f : nat) (r : string) :
  Json.parse_value (S f) (String (Str.byte_of 34) r)
  = match Json.parse_string (S (String.length r)) r with
    | Some (t, out) => Some (Json.Str t, out)
    | None => None
    end.
Proof. reflexivity. Qed.

Lemma Quote_readsAs (s : string) :
  all_bytes is_printable s = true -> readsAs (Strconv.Quote s) (Json.Str s).
Proof.
  intros Hs f rest. rewrite Quote_app, parse_value_dquote, parse_string_escape;
    [reflexivity | exact Hs |].
  rewrite length_append. pose proof (length_escape s). lia.
Qed.


(** One member [key : value] of an object, followed by a comma and more
    members, or by the closing brace. *)
Lemma parse_members_more (key vtxt : string) (v : Json.value) (more : string) (f : nat) :
  all_bytes is_json_plain key = true ->
  readsAs vtxt v ->
  Json.parse_members (S (S f)) (q key ++ ":" ++ vtxt ++ "," ++ more)
  = match Json.parse_members (S f) more with
    | Some (l, out) => Some ((key, v) :: l, out)
    | None => None
    end.
Proof.
  intros Hk Hv. rewrite quoted_app. cbn [Json.parse_members].
  change (Json.starts_with 34 (Json.skip_ws (String (Str.byte_of 34) ?x))) with (Some x).
  cbv iota. rewrite parse_string_plain; [|exact Hk|rewrite length_append; lia].
  change (Json.starts_with 58 (Json.skip_ws (":" ++ ?x))) with (Some x). cbv iota.
  rewrite (Hv f ("," ++ more)). reflexivity.
Qed.

Lemma parse_members_last (key vtxt : string) (v : Json.value) (rest : string) (f : nat) :
  all_bytes is_json_plain key = true ->
  readsAs vtxt v ->
  Json.parse_members (S (S f)) (q key ++ ":" ++ vtxt ++ "}" ++ rest)
  = Some ([(key, v)], rest).
Proof.
  intros Hk Hv. rewrite quoted_app. cbn [Json.parse_members].
  change (Json.starts_with 34 (Json.skip_ws (String (Str.byte_of 34) ?x))) with (Some x).
  cbv iota. rewrite parse_string_plain; [|exact Hk|rewrite length_append; lia].
  change (Json.starts_with 58 (Json.skip_ws (":" ++ ?x))) with (Some x). cbv iota.
  rewrite (Hv f ("}" ++ rest)). reflexivity.
Qed.

(** An array that holds one object. *)
Lemma parse_array_of_object (key tail : string) (l : list (string * Json.value)) (f : nat) :
  Json.parse_members (S f) (q key ++ tail) = Some (l, "]") ->
  Json.parse_value (S (S (S (S f)))) ("[{" ++ q key ++ tail)
  = Some (Json.Array [Json.Object l], "").
Proof.
  rewrite quoted_app. generalize (key ++ Strconv.dquote ++ tail). intros x H.
  change (Json.parse_value (S (S (S (S f)))) ("[{" ++ String (Str.byte_of 34) x))
    with (match Json.parse_elems (S (S (S f))) ("{" ++ String (Str.byte_of 34) x) with
          | Some (l, out) => Some (Json.Array l, out)
          | None => None
          end).
  change (Json.parse_elems (S (S (S f))) ("{" ++ String (Str.byte_of 34) x))
    with (match Json.parse_value (S (S f)) ("{" ++ String (Str.byte_of 34) x) with
          | None => None
          | Some (v, r) =>
              match Json.skip_ws r with
              | String c r' =>
                  if Json.bv c =? 44 then
                    match Json.parse_elems (S (S f)) r' with
                    | Some (l, out) => Some (v :: l, out)
                    | None => None
                    end
                  else if Json.bv c =? 93 then Some ([v], r')
                  else None
              | EmptyString => None
              end
          end).
  change (Json.parse_value (S (S f)) ("{" ++ String (Str.byte_of 34) x))
    with (match Json.parse_members (S f) (String (Str.byte_of 34) x) with
          | Some (l, out) => Some (Json.Object l, out)
          | None => None
          end).
  rewrite H. reflexivity.
Qed.

Lemma parse_whole (txt : string) (v : Json.value) :
  (2 <= String.length txt)%nat ->
  (forall f, Json.parse_value (S (S (S (S (S (S (S (S f)))))))) txt = Some (v, "")) ->
  Json.parse txt = Some v.
Proof.
  intros Hlen H. unfold Json.parse.
  destruct (String.length txt) as [|[|n]]; try lia.
  replace (2 * S (S n) + 4)%nat with (S (S (S (S (S (S (S (S (2 * n))))))))) by lia.
  now rewrite H.
Qed.

(** X13.  The body of the lookup by metadata is a JSON text whenever the
    artist, the title and the album are printable ASCII: it reads as an
    array holding one object whose members [artist_name], [track_name] and
    [release_name] are exactly the three strings.  Quotes and backslashes in
    them come back unchanged. *)
Theorem metadataPayload_is_JSON (artist title album : string) :
  all_bytes is_printable artist = true ->
  all_bytes is_printable title = true ->
  all_bytes is_printable album = true ->
  Json.parse (metadataPayload artist title album) = Some (metadataJSON artist title album).
Proof.
  intros Ha Ht Hal. apply parse_whole.
  - unfold metadataPayload. rewrite length_append. simpl. lia.
  - intros f. unfold metadataPayload.
    apply parse_array_of_object.
    rewrite (parse_members_more "artist_name" _ _ _ _ eq_refl (Quote_readsAs artist Ha)).
    rewrite (parse_members_more "track_name" _ _ _ _ eq_refl (Quote_readsAs title Ht)).
    now rewrite (parse_members_last "release_name" _ _ "]" _ eq_refl (Quote_readsAs album Hal)).
Qed.

Lemma metadataPayload_is_JSON_witness :
  Json.parse (metadataPayload "Guns N' Roses" ("Sweet " ++ q "Child" ++ " O' Mine")
                "Appetite for Destruction")
  = Some (metadataJSON "Guns N' Roses" ("Sweet " ++ q "Child" ++ " O' Mine")
            "Appetite for Destruction").
Proof. apply metadataPayload_is_JSON; reflexivity. Defined.



Example mbidRequest_with_quote_is_not_JSON :
  Json.parse (rq_Body (mbidRequest (q "x"))) = None.
Proof. vm_compute. reflexivity. Qed.

(** ** More on the resolver *)

Lemma resolver_logs (l : list Event) :
  forallb isLog l = true ->
  List.filter isCacheWrite l = [] /\ forallb isResolverEvent l = true.
Proof.
  induction l as [|e l IH]; [split; reflexivity|]. simpl.
  intros H. apply andb_true_iff in H as [He Hl]. destruct (IH Hl) as [IH1 IH2].
  destruct e; try discriminate He. simpl. auto.
Qed.

Lemma lookupSends_quiet (host : Host) (req : HTTPRequest) (before : list Event)
    (r : string * History) (h : History) :
  forallb isLog before = true ->
  lookupSends host req before r h ->
  exists t, snd r = (h ++ t)%list
            /\ List.filter isCacheWrite t = [] /\ forallb isResolverEvent t = true.
Proof.
  intros Hb (logs & -> & Hlogs). cbn [snd].
  destruct (resolver_logs before Hb) as [Hb1 Hb2].
  destruct (resolver_logs logs Hlogs) as [Hl1 Hl2].
  eexists. split; [rewrite <- app_assoc; reflexivity|].
  rewrite List.filter_app, forallb_app. simpl. rewrite Hb1, Hb2, Hl1, Hl2. auto.
Qed.

Lemma IDLookupFailed_quiet (host : Host) (track : TrackInfo) (h hID : History) :
  IDLookupFailed host track h hID ->
  exists t, hID = (h ++ t)%list
            /\ List.filter isCacheWrite t = [] /\ forallb isResolverEvent t = true.
Proof.
  intros [_ ->|hT _ Hrun ->].
  - eexists. split; [reflexivity|]. split; reflexivity.
  - destruct (lookupSends_quiet host _ [] _ _ eq_refl
                (trySpotifyFromMBID_sends host (ti_MBZRecordingID track)
                   (h ++ [resolvingLog track])%list)) as (t & Ht & Hw & Hr).
    rewrite Hrun in Ht. cbn [snd] in Ht. subst hT.
    exists ([resolvingLog track] ++ t ++ [idLookupEmptyLog])%list.
    split; [now rewrite <- !app_assoc|].
    rewrite !List.filter_app, !forallb_app, Hw, Hr. split; reflexivity.
Qed.

Lemma MetadataLookupFailed_quiet (host : Host) (track : TrackInfo) (hID hM : History) :
  MetadataLookupFailed host track hID hM ->
  exists t, hM = (hID ++ t)%list
            /\ List.filter isCacheWrite t = [] /\ forallb isResolverEvent t = true.
Proof.
  intros [_ ->|_ _ Hrun].
  - exists []. rewrite app_nil_r. split; [reflexivity|]. split; reflexivity.
  - destruct (lookupSends_quiet host _
                [metadataRequestLog (primaryArtist track) (ti_Title track) (ti_Album track)]
                _ _ eq_refl
                (trySpotifyFromMetadata_sends host (primaryArtist track) (ti_Title track)
                   (ti_Album track) hID)) as (t & Ht & Hw & Hr).
    rewrite Hrun in Ht. cbn [snd] in Ht. exists t. auto.
Qed.

Lemma FallbackChain_writes_once (host : Host) (track : TrackInfo) (h : History)
    (url : string) (h' : History) :
  FallbackChain host track h url h' ->
  exists t ttl answer,
    h' = (h ++ t)%list
    /\ List.filter isCacheWrite t = [EvCacheSetString (trackCacheKey track) url ttl answer]
    /\ missOutcome track url ttl
    /\ forallb isResolverEvent t = true.
Proof.
  intros [id hT write Hne Hrun Hid [answer ->]
         |hID id hM write Hfail _ _ Hrun Hid [answer ->]
         |hID hM write Hfail Hfail' [answer ->]].
  - destruct (lookupSends_quiet host _ [] _ _ eq_refl
                (trySpotifyFromMBID_sends host (ti_MBZRecordingID track)
                   (h ++ [resolvingLog track])%list)) as (t & Ht & Hw & Hr).
    rewrite Hrun in Ht. cbn [snd] in Ht. subst hT.
    eexists ([resolvingLog track] ++ t ++ [_; _])%list, spotifyCacheTTLHit, answer.
    split; [now rewrite <- !app_assoc|].
    rewrite !List.filter_app, !forallb_app, Hw, Hr.
    split; [reflexivity|]. split; [left; eauto | reflexivity].
  - destruct (IDLookupFailed_quiet _ _ _ _ Hfail) as (t1 & -> & Hw1 & Hr1).
    destruct (lookupSends_quiet host _
                [metadataRequestLog (primaryArtist track) (ti_Title track) (ti_Album track)]
                _ _ eq_refl
                (trySpotifyFromMetadata_sends host (primaryArtist track) (ti_Title track)
                   (ti_Album track) (h ++ t1)%list)) as (t & Ht & Hw & Hr).
    rewrite Hrun in Ht. cbn [snd] in Ht. subst hM.
    eexists (t1 ++ t ++ [_; _])%list, spotifyCacheTTLHit, answer.
    split; [now rewrite <- !app_assoc|].
    rewrite !List.filter_app, !forallb_app, Hw1, Hr1, Hw, Hr.
    split; [reflexivity|]. split; [left; eauto | reflexivity].
  - destruct (IDLookupFailed_quiet _ _ _ _ Hfail) as (t1 & -> & Hw1 & Hr1).
    destruct (MetadataLookupFailed_quiet _ _ _ _ Hfail') as (t2 & -> & Hw2 & Hr2).
    eexists (t1 ++ t2 ++ [_; _])%list, spotifyCacheTTLMiss, answer.
    split; [now rewrite <- !app_assoc|].
    rewrite !List.filter_app, !forallb_app, Hw1, Hr1, Hw2, Hr2.
    split; [reflexivity|]. split; [right; auto | reflexivity].
Qed.

Lemma resolveSpotifyURL_miss_run (host : Host) (track : TrackInfo) (h : History) :
  cacheHit (host_CacheGetString host h (trackCacheKey track)) = false ->
  exists t ttl answer,
    snd (resolveSpotifyURL host track h) = (h ++ cacheRead host track h :: t)%list
    /\ List.filter isCacheWrite t
       = [EvCacheSetString (trackCacheKey track) (fst (resolveSpotifyURL host track h))
            ttl answer]
    /\ missOutcome track (fst (resolveSpotifyURL host track h)) ttl
    /\ forallb isResolverEvent t = true.
Proof.
  intros Hmiss. rewrite (resolveSpotifyURL_miss _ _ _ Hmiss).
  destruct (FallbackChain_writes_once _ _ _ _ _
              (resolveMiss_chain host track (h ++ [cacheRead host track h])%list))
    as (t & ttl & answer & Ht & Hw & Hk & Hr).
  exists t, ttl, answer. rewrite Ht, <- app_assoc. auto.
Qed.

(** X15.  A resolution that misses the cache writes to the cache exactly
    once, under the key of the track, and what it writes is the URL it
    returns: either a direct track URL with a non-empty id, kept for 30
    days, or the search URL of the track, kept for 4 hours.  Its events are
    the cache read, lookups, that one cache write and log lines, nothing
    else. *)
Theorem resolveSpotifyURL_miss_writes_once (host : Host) (track : TrackInfo) (h : History) :
  cacheHit (host_CacheGetString host h (trackCacheKey track)) = false ->
  exists t ttl answer,
    snd (resolveSpotifyURL host track h) = (h ++ t)%list
    /\ List.filter isCacheWrite t
       = [EvCacheSetString (trackCacheKey track) (fst (resolveSpotifyURL host track h))
            ttl answer]
    /\ missOutcome track (fst (resolveSpotifyURL host track h)) ttl
    /\ forallb isResolverEvent t = true.
Proof.
  intros Hmiss.
  destruct (resolveSpotifyURL_miss_run host track h Hmiss)
    as (t & ttl & answer & Ht & Hw & Hk & Hr).
  exists (cacheRead host track h :: t), ttl, answer.
  split; [exact Ht|]. split; [exact Hw|]. split; [exact Hk|]. exact Hr.
Qed.

Lemma resolveSpotifyURL_miss_writes_once_witness :
  exists t ttl answer,
    snd (resolveSpotifyURL (tableHost onlyMetadata) karmaPolice []) = t
    /\ List.filter isCacheWrite t
       = [EvCacheSetString (trackCacheKey karmaPolice)
            (fst (resolveSpotifyURL (tableHost onlyMetadata) karmaPolice [])) ttl answer]
    /\ missOutcome karmaPolice
         (fst (resolveSpotifyURL (tableHost onlyMetadata) karmaPolice [])) ttl
    /\ forallb isResolverEvent t = true.
Proof.
  apply (resolveSpotifyURL_miss_writes_once (tableHost onlyMetadata) karmaPolice []).
  reflexivity.
Defined.

(** *** Resolving twice *)

Lemma emits_call_at {A : Type} (P : Event -> bool) (answer : History -> A)
    (ev : A -> Event) :
  (forall h, P (ev (answer h)) = true) -> emits P (call answer ev).
Proof. intros H h. exists [ev (answer h)]. simpl. now rewrite H. Qed.

Ltac emits_step_at Hw :=
  first
    [ apply emits_ret
    | apply emits_call_at; intros; cbn beta; rewrite ?Hw; reflexivity
    | apply emits_bind; [|intros ?]
    | match goal with
      | |- emits _ (if ?b then _ else _) => destruct b
      | |- emits _ (match ?x with _ => _ end) => destruct x
      | |- emits _ (let '(_, _) := ?x in _) => destruct x
      end ].

Lemma resolveSpotifyURL_writes_succeed (host : Host) (track : TrackInfo) :
  (forall h key value ttl, host_CacheSetString host h key value ttl = None) ->
  emits writeSucceeded (resolveSpotifyURL host track).
Proof.
  intros Hw.
  assert (Hs : emits writeSucceeded (searchFallback host track))
    by (unfold searchFallback, CacheSetString, Log; cbv zeta; repeat emits_step_at Hw).
  assert (Hi : forall mbid, emits writeSucceeded (trySpotifyFromMBID host mbid))
    by (intros; unfold trySpotifyFromMBID, Send, Log; cbv zeta; repeat emits_step_at Hw).
  assert (Ht : forall a t al, emits writeSucceeded (trySpotifyFromMetadata host a t al))
    by (intros; unfold trySpotifyFromMetadata, Send, Log; cbv zeta; repeat emits_step_at Hw).
  assert (Hm : emits writeSucceeded (metadataLookup host track)).
  { unfold metadataLookup. cbv zeta.
    destruct (_ && _); [|exact Hs].
    apply emits_bind; [apply Ht|].
    intros id. destruct (negb _); [|exact Hs].
    unfold CacheSetString, Log. repeat emits_step_at Hw. }
  unfold resolveSpotifyURL. cbv zeta.
  apply emits_bind; [unfold CacheGetString; repeat emits_step_at Hw|].
  intros got. destruct (cacheHit got); [unfold Log; repeat emits_step_at Hw|].
  unfold resolveMiss. cbv zeta.
  apply emits_bind; [unfold Log; repeat emits_step_at Hw|]. intros _.
  destruct (negb _).
  - apply emits_bind; [apply Hi|].
    intros id. destruct (negb _).
    + unfold CacheSetString, Log. repeat emits_step_at Hw.
    + apply emits_bind; [unfold Log; repeat emits_step_at Hw | intros _; exact Hm].
  - apply emits_bind; [unfold Log; repeat emits_step_at Hw | intros _; exact Hm].
Qed.

Lemma lastWrite_app (key : string) (h t : History) :
  lastWrite key (h ++ t)%list
  = fold_left (cacheStep key) (List.filter isCacheWrite t) (lastWrite key h).
Proof.
  unfold lastWrite. rewrite fold_left_app. generalize (fold_left (cacheStep key) h None).
  induction t as [|e t IH]; intros held; [reflexivity|]. simpl.
  destruct e; simpl; apply IH.
Qed.

Lemma resolveSpotifyURL_hit_run (host : Host) (track : TrackInfo) (h : History)
    (cached : string) :
  host_CacheGetString host h (trackCacheKey track) = (cached, true, None) ->
  exists t,
    resolveSpotifyURL host track h = (cached, (h ++ t)%list)
    /\ List.filter isCacheWrite t = [] /\ List.filter isLookup t = [].
Proof.
  intros H. unfold resolveSpotifyURL, CacheGetString, call, bind. cbv zeta.
  fold (trackCacheKey track). rewrite H. cbn [cacheHit fst snd andb].
  unfold Log, call, bind, ret. rewrite <- app_assoc. cbn [app].
  eexists. split; [reflexivity|]. split; reflexivity.
Qed.

(** X16.  With a cache that keeps what it is given, resolving the same
    track a second time, right after the first, returns the same URL from
    the cache: the second call sends no lookup and writes nothing.  This
    holds whether the first call hit the cache, found an id, or fell back to
    the search URL. *)
Theorem resolveSpotifyURL_twice (host : Host) (track : TrackInfo) (h : History) :
  cacheFaithful host ->
  let first := resolveSpotifyURL host track h in
  let second := resolveSpotifyURL host track (snd first) in
  fst second = fst first
  /\ exists t, snd second = (snd first ++ t)%list
               /\ List.filter isLookup t = [] /\ List.filter isCacheWrite t = [].
Proof.
  intros [Hread Hwrite]. cbv zeta.
  assert (Hhit : forall h1 v,
             lastWrite (trackCacheKey track) h1 = Some v ->
             fst (resolveSpotifyURL host track h1) = v
             /\ exists t, snd (resolveSpotifyURL host track h1) = (h1 ++ t)%list
                          /\ List.filter isLookup t = [] /\ List.filter isCacheWrite t = []).
  { intros h1 v Hv.
    destruct (resolveSpotifyURL_hit_run host track h1 v) as (t & -> & Hw & Hl).
    - now rewrite Hread, Hv.
    - split; [reflexivity|]. exists t. auto. }
  destruct (lastWrite (trackCacheKey track) h) as [v|] eqn:Ev.
  - destruct (resolveSpotifyURL_hit_run host track h v) as (t & Hrun & Hw & _).
    { now rewrite Hread, Ev. }
    rewrite Hrun. cbn [fst snd]. apply Hhit.
    now rewrite lastWrite_app, Hw, Ev.
  - assert (Hmiss : cacheHit (host_CacheGetString host h (trackCacheKey track)) = false)
      by now rewrite Hread, Ev.
    destruct (resolveSpotifyURL_miss_run host track h Hmiss)
      as (t & ttl & answer & Ht & Hw & _ & _).
    destruct (resolveSpotifyURL_writes_succeed host track Hwrite h) as (t' & Ht' & Hok).
    rewrite Ht in Ht'. apply app_inv_head in Ht'. subst t'.
    assert (answer = None) as ->.
    { assert (Hin : In (EvCacheSetString (trackCacheKey track)
                          (fst (resolveSpotifyURL host track h)) ttl answer)
                       (cacheRead host track h :: t)).
      { right. apply (List.filter_In isCacheWrite). rewrite Hw. now left. }
      apply (In_kind _ _ _ Hok) in Hin. now destruct answer. }
    rewrite Ht. apply Hhit.
    rewrite lastWrite_app. cbn [List.filter cacheRead isCacheWrite]. rewrite Hw, Ev.
    cbn. now rewrite String.eqb_refl.
Qed.

Lemma memoHost_faithful (tables : Tables) : cacheFaithful (memoHost tables).
Proof. split; reflexivity. Qed.

Lemma resolveSpotifyURL_twice_witness :
  fst (resolveSpotifyURL (memoHost onlyMetadata) karmaPolice
         (snd (resolveSpotifyURL (memoHost onlyMetadata) karmaPolice [])))
  = fst (resolveSpotifyURL (memoHost onlyMetadata) karmaPolice [])
  /\ exists t,
       snd (resolveSpotifyURL (memoHost onlyMetadata) karmaPolice
              (snd (resolveSpotifyURL (memoHost onlyMetadata) karmaPolice [])))
       = (snd (resolveSpotifyURL (memoHost onlyMetadata) karmaPolice []) ++ t)%list
       /\ List.filter isLookup t = [] /\ List.filter isCacheWrite t = [].
Proof.
  apply (resolveSpotifyURL_twice (memoHost onlyMetadata) karmaPolice []).
  apply memoHost_faithful.
Defined.

Example resolve_twice_run :
  fst (resolveSpotifyURL (memoHost onlyMetadata) karmaPolice
         (snd (resolveSpotifyURL (memoHost onlyMetadata) karmaPolice [])))
  = "https://open.spotify.com/track/meta456"
  /\ length (List.filter isLookup
               (snd (resolveSpotifyURL (memoHost onlyMetadata) karmaPolice
                       (snd (resolveSpotifyURL (memoHost onlyMetadata) karmaPolice [])))))
     = 1%nat.
Proof. vm_compute. split; reflexivity. Qed.

(** ** The configuration *)

Lemma fold_users_lookup (l : list userToken) (acc : gmap string string) (u tok : string) :
  fold_left
    (fun users ut =>
       if negb (String.eqb (ut_Username ut) "") && negb (String.eqb (ut_Token ut) "")
       then <[ut_Username ut := ut_Token ut]> users
       else users) l acc !! u = Some tok ->
  acc !! u = Some tok \/ (u <> "" /\ tok <> "" /\ In (UserToken u tok) l).
Proof.
  revert acc. induction l as [|[name token] l IH]; intros acc; simpl; [auto|].
  intros H. apply IH in H as [H|(Hu & Ht & Hin)]; [|right; auto].
  destruct (String.eqb_spec name "") as [En|En]; simpl in H; [auto|].
  destruct (String.eqb_spec token "") as [Et|Et]; simpl in H; [auto|].
  apply lookup_insert_Some in H as [[<- <-]|[_ H]]; [right|left]; auto.
Qed.

Lemma buildUsers_lookup (l : list userToken) (u tok : string) :
  buildUsers l !! u = Some tok -> u <> "" /\ tok <> "" /\ In (UserToken u tok) l.
Proof.
  unfold buildUsers. intros H. apply fold_users_lookup in H as [H|H]; [|exact H].
  rewrite lookup_empty in H. discriminate H.
Qed.

Lemma getConfig_result (host : Host) (h : History) :
  usersOf host h = ∅
  \/ (configuredClientID host h <> ""
      /\ exists userTokens, usersOf host h = buildUsers userTokens).
Proof.
  unfold usersOf, configuredClientID, getConfig. rewrite bind_run.
  destruct (fst (GetConfig host clientIDKey h)) as [clientID ok].
  destruct (String.eqb_spec clientID "") as [E|E];
    [rewrite orb_true_r; left; reflexivity|].
  rewrite orb_false_r. destruct ok; cbn [negb]; [|left; reflexivity].
  rewrite bind_run.
  destruct (fst (GetConfig host usersKey _)) as [usersJSON ok'].
  destruct (negb ok' || String.eqb usersJSON ""); [left; reflexivity|].
  destruct (unmarshalUsers usersJSON) as [userTokens|]; [|left; reflexivity].
  destruct (length userTokens =? 0)%nat; [left; reflexivity|].
  destruct (size (buildUsers userTokens) =? 0)%nat; [left; reflexivity|].
  right. cbn [fst snd]. eauto.
Qed.

(** X17.  Whatever the stored configuration is, a user that [getConfig]
    returns has a non-empty name and a non-empty token, and users are
    returned only together with a non-empty client id.  The error result of
    [getConfig] is nil on every path. *)
Theorem getConfig_users_valid (host : Host) (h : History) (u tok : string) :
  snd (fst (getConfig host h)) = None
  /\ (usersOf host h !! u = Some tok ->
      u <> "" /\ tok <> "" /\ configuredClientID host h <> "").
Proof.
  split; [apply getConfig_no_error|].
  intros H. destruct (getConfig_result host h) as [E|(Hc & userTokens & E)];
    rewrite E in H.
  - rewrite lookup_empty in H. discriminate H.
  - apply buildUsers_lookup in H as (Hu & Ht & _). auto.
Qed.

Lemma getConfig_users_valid_witness :
  "alice" <> "" /\ "token-a" <> "" /\ configuredClientID (tableHost onlyMetadata) [] <> "".
Proof.
  apply (proj2 (getConfig_users_valid (tableHost onlyMetadata) [] "alice" "token-a")).
  vm_compute. reflexivity.
Defined.

Lemma fold_users_keep (l : list userToken) (acc : gmap string string) (u tok : string) :
  acc !! u = Some tok ->
  Forall (fun e => ut_Username e <> u \/ validEntry e = false) l ->
  fold_left
    (fun users ut =>
       if negb (String.eqb (ut_Username ut) "") && negb (String.eqb (ut_Token ut) "")
       then <[ut_Username ut := ut_Token ut]> users
       else users) l acc !! u = Some tok.
Proof.
  intros Hacc Hl. revert acc Hacc. induction Hl as [|e l He Hl IH]; intros acc Hacc; simpl;
    [exact Hacc|].
  apply IH. fold (validEntry e). destruct (validEntry e) eqn:Ev; [|exact Hacc].
  destruct He as [He|He]; [|discriminate He].
  now rewrite lookup_insert_ne.
Qed.

(** X18.  In the users list a later entry for a name replaces an earlier
    one: the token of a user is the token of the last entry with that name
    that has a non-empty name and token; entries with an empty token do not
    erase an earlier token. *)
Theorem buildUsers_last_wins (before after : list userToken) (u tok : string) :
  u <> "" -> tok <> "" ->
  Forall (fun e => ut_Username e <> u \/ validEntry e = false) after ->
  buildUsers (before ++ UserToken u tok :: after) !! u = Some tok.
Proof.
  intros Hu Ht Hafter. unfold buildUsers. rewrite fold_left_app. simpl.
  apply String.eqb_neq in Hu, Ht. rewrite Hu, Ht. simpl.
  apply fold_users_keep; [|exact Hafter]. apply lookup_insert_eq.
Qed.

Lemma buildUsers_last_wins_witness :
  buildUsers ([UserToken "alice" "old"] ++ UserToken "alice" "new"
                :: [UserToken "alice" ""; UserToken "bob" "b"]) !! "alice"
  = Some "new".
Proof.
  apply buildUsers_last_wins; try discriminate.
  constructor; [right; reflexivity|]. constructor; [left; discriminate|]. constructor.
Defined.

(** X19.  Without a client id (the key is missing, or its value is
    empty) nobody is authorized, whatever the users value holds: [getConfig]
    logs a warning and returns no users without reading the users key, and
    [IsAuthorized] answers [false] with a nil error for every username. *)
Theorem no_client_id_no_access (host : Host) (h : History) (value : string) (ok : bool) :
  pdk_GetConfig host h clientIDKey = (value, ok) ->
  ok = false \/ value = "" ->
  getConfig host h
  = (("", ∅, None),
     (h ++ [EvGetConfig clientIDKey value ok;
            EvLog LogWarn "missing ClientID in configuration" []])%list)
  /\ forall input,
       IsAuthorized host input h
       = ((false, None),
          (h ++ [EvGetConfig clientIDKey value ok;
                 EvLog LogWarn "missing ClientID in configuration" [];
                 EvLog LogInfo "IsAuthorized for user %s: %v"
                       [ArgS (ia_Username input); ArgB false]])%list).
Proof.
  intros Hget Hno.
  assert (Hcfg : getConfig host h
                 = (("", ∅, None),
                    (h ++ [EvGetConfig clientIDKey value ok;
                           EvLog LogWarn "missing ClientID in configuration" []])%list)).
  { unfold getConfig. rewrite bind_run, GetConfig_run, Hget. cbn [fst snd].
    assert (Hb : negb ok || String.eqb value "" = true).
    { destruct Hno as [->| ->]; [reflexivity | apply orb_true_r]. }
    rewrite Hb, bind_run, Log_run. unfold ret. cbn [fst snd].
    now rewrite <- app_assoc. }
  split; [exact Hcfg|].
  intros input. rewrite IsAuthorized_run, Hcfg. cbn [fst snd].
  now rewrite <- app_assoc.
Qed.

Lemma no_client_id_no_access_witness :
  IsAuthorized
    (tableHost (MkTables [("users", "[{" ++ q "username" ++ ":" ++ q "alice" ++ ","
                                        ++ q "token" ++ ":" ++ q "token-a" ++ "}]")]
                  cacheEmpty httpDown None None None 0))
    (MkIsAuthorizedRequest "alice") []
  = ((false, None),
     [EvGetConfig clientIDKey "" false;
      EvLog LogWarn "missing ClientID in configuration" [];
      EvLog LogInfo "IsAuthorized for user %s: %v" [ArgS "alice"; ArgB false]]).
Proof.
  apply (proj2 (no_client_id_no_access
                  (tableHost (MkTables [("users", "[{" ++ q "username" ++ ":" ++ q "alice" ++ ","
                                                      ++ q "token" ++ ":" ++ q "token-a" ++ "}]")]
                                cacheEmpty httpDown None None None 0))
                  [] "" false eq_refl (or_introl eq_refl))
               (MkIsAuthorizedRequest "alice")).
Defined.

(** ** More on the presence update *)

(** X20.  When the connection to Discord fails, [NowPlaying] returns the
    retry-later error and stops there: before the failed [connect] it has
    only logged and read the configuration, and after it nothing happens:
    no schedule is cancelled, nothing is resolved, sent or scheduled. *)
Theorem NowPlaying_connect_failure (host : Host) (input : NowPlayingRequest)
    (h t : History) (token : string) (e : error) :
  snd (NowPlaying host input h) = (h ++ t)%list ->
  In (EvConnect (np_Username input) token (Some e)) t ->
  fst (NowPlaying host input h)
  = Some (Wrap ScrobblerErrorRetryLater ("failed to connect to Discord: " ++ e))
  /\ exists pre,
       t = (pre ++ [EvConnect (np_Username input) token (Some e)])%list
       /\ forallb isConfigEvent pre = true.
Proof.
  intros Ht Hin.
  destruct (NowPlaying_cases host input h) as (clientID & tC & HtC & Hcase).
  cbv zeta in Hcase.
  destruct (configuredUsers host input h !! np_Username input) as [token'|].
  2: { exfalso. rewrite Hcase in Ht. cbn [snd] in Ht. apply app_inv_head in Ht. subst t.
       in_cases Hin; try discriminate Hin.
       apply (In_kind _ _ _ HtC) in Hin. discriminate Hin. }
  destruct (rpc_connect host _ (np_Username input) token') as [e'|].
  - rewrite Hcase in Ht |- *. cbn [fst snd] in *. rewrite <- app_assoc in Ht.
    apply app_inv_head in Ht. subst t.
    assert (token' = token /\ e' = e) as [-> ->].
    { in_cases Hin; try discriminate Hin.
      - apply (In_kind _ _ _ HtC) in Hin. discriminate Hin.
      - injection Hin. auto. }
    split; [reflexivity|]. exists (presenceLog input :: tC). split; [reflexivity|].
    exact HtC.
  - exfalso. destruct Hcase as (cancelled & mid & a & Hmid & Hcase).
    assert (Hno : forall l, snd (NowPlaying host input h)
                            = ((h ++ presenceLog input :: tC)
                                 ++ EvConnect (np_Username input) token' None
                                 :: EvCancelSchedule (clearScheduleID (np_Username input))
                                      cancelled :: mid ++ l)%list ->
                           ~ In (EvConnect (np_Username input) token (Some e)) l -> False).
    { intros l Hl Hnot. rewrite Hl, <- app_assoc in Ht. apply app_inv_head in Ht. subst t.
      cbn [app] in Hin.
      in_cases Hin; try discriminate Hin; try contradiction.
      - apply (In_kind _ _ _ HtC) in Hin. discriminate Hin.
      - apply (In_kind _ _ _ Hmid) in Hin. discriminate Hin. }
    destruct (rpc_sendActivity host _ clientID (np_Username input) token' a) as [e'|].
    + apply (Hno [EvSendActivity clientID (np_Username input) token' a (Some e')]).
      * rewrite Hcase. cbn [snd]. now rewrite <- !app_assoc.
      * intros [H|[]]. discriminate H.
    + destruct Hcase as (handle & err & Hcase).
      apply (Hno (EvSendActivity clientID (np_Username input) token' a None
                    :: EvScheduleOneTime (remainingSeconds input) payloadClearActivity
                         (clearScheduleID (np_Username input)) handle err
                    :: scheduleFailureLog err)).
      * rewrite Hcase. cbn [snd]. now rewrite <- !app_assoc.
      * intros H. destruct err; cbn [scheduleFailureLog] in H;
          in_cases H; discriminate H.
Qed.

Lemma NowPlaying_connect_failure_witness :
  fst (NowPlaying (tableHost connectFails) (aliceListens 200 30) [])
  = Some (Wrap ScrobblerErrorRetryLater "failed to connect to Discord: no gateway")
  /\ exists pre,
       snd (NowPlaying (tableHost connectFails) (aliceListens 200 30) [])
       = (pre ++ [EvConnect "alice" "token-a" (Some "no gateway")])%list
       /\ forallb isConfigEvent pre = true.
Proof.
  apply (NowPlaying_connect_failure (tableHost connectFails) (aliceListens 200 30) []).
  - reflexivity.
  - vm_compute. repeat first [left; reflexivity | right].
Defined.

(** X21.  [NowPlaying] has four outcomes and no other: success, only when
    the activity was sent and the gateway accepted it; the not-authorized
    error, only when the username is not in the configured mapping; and the
    retry-later error, only for a configured user whose connection failed or
    whose send failed.  It never returns another error kind, and a failure
    to cancel or to schedule alone never makes it fail. *)
Theorem NowPlaying_outcomes (host : Host) (input : NowPlayingRequest) (h t : History) :
  snd (NowPlaying host input h) = (h ++ t)%list ->
  match fst (NowPlaying host input h) with
  | None => sentWith None t
  | Some w =>
      (err_kind w = ScrobblerErrorNotAuthorized
       /\ configuredUsers host input h !! np_Username input = None)
      \/ (err_kind w = ScrobblerErrorRetryLater
          /\ is_Some (configuredUsers host input h !! np_Username input)
          /\ ((exists token e, In (EvConnect (np_Username input) token (Some e)) t)
              \/ (exists e, sentWith (Some e) t)))
  end.
Proof.
  intros Ht.
  destruct (NowPlaying_cases host input h) as (clientID & tC & HtC & Hcase).
  cbv zeta in Hcase.
  destruct (configuredUsers host input h !! np_Username input) as [token|].
  2: { rewrite Hcase. cbn [fst]. left. auto. }
  destruct (rpc_connect host _ (np_Username input) token) as [e|].
  { rewrite Hcase in Ht |- *. cbn [fst snd] in *. right. split; [reflexivity|].
    split; [eauto|]. left. exists token, e.
    rewrite <- app_assoc in Ht. apply app_inv_head in Ht. subst t.
    right. apply in_or_app. right. now left. }
  destruct Hcase as (cancelled & mid & a & Hmid & Hcase).
  destruct (rpc_sendActivity host _ clientID (np_Username input) token a) as [e|].
  - rewrite Hcase in Ht |- *. cbn [fst snd] in *. right. split; [reflexivity|].
    split; [eauto|]. right. exists e, clientID, (np_Username input), token, a.
    rewrite <- !app_assoc in Ht. apply app_inv_head in Ht. subst t.
    cbn [app]. right. apply in_or_app. right. right. right. apply in_or_app. right. now left.
  - destruct Hcase as (handle & err & Hcase).
    rewrite Hcase in Ht |- *. cbn [fst snd] in *.
    exists clientID, (np_Username input), token, a.
    rewrite <- !app_assoc in Ht. apply app_inv_head in Ht. subst t.
    cbn [app]. right. apply in_or_app. right. right. right. apply in_or_app. right. now left.
Qed.

Lemma NowPlaying_outcomes_witness :
  sentWith None (snd (NowPlaying (tableHost scheduleFails) (aliceListens 200 30) [])).
Proof.
  apply (NowPlaying_outcomes (tableHost scheduleFails) (aliceListens 200 30) []).
  reflexivity.
Defined.




(** ** The scheduler callback *)

Lemma slice_to_app (a b : string) : Str.slice_to (String.length a) (a ++ b) = a.
Proof.
  induction a as [|c a IH]; [reflexivity|]. rewrite append_cons. simpl. now rewrite IH.
Qed.

Lemma slice_from_app (a b : string) : Str.slice_from (String.length a) (a ++ b) = b.
Proof.
  induction a as [|c a IH]; [reflexivity|]. rewrite append_cons. simpl. exact IH.
Qed.

Lemma TrimSuffix_app (s suffix : string) : TrimSuffix (s ++ suffix) suffix = s.
Proof.
  unfold TrimSuffix, HasSuffix. rewrite length_append.
  replace (String.length s + String.length suffix - String.length suffix)%nat
    with (String.length s) by lia.
  rewrite slice_from_app, String.eqb_refl, slice_to_app.
  destruct (Nat.leb_spec (String.length suffix) (String.length s + String.length suffix));
    [reflexivity | lia].
Qed.

Lemma NowPlaying_schedule_events (host : Host) (input : NowPlayingRequest) (h t : History)
    (delay : Z) (payload id handle : string) (err : option error) :
  snd (NowPlaying host input h) = (h ++ t)%list ->
  In (EvScheduleOneTime delay payload id handle err) t ->
  payload = payloadClearActivity /\ id = clearScheduleID (np_Username input)
  /\ delay = remainingSeconds input.
Proof.
  intros Ht Hin.
  destruct (NowPlaying_cases host input h) as (clientID & tC & HtC & Hcase).
  cbv zeta in Hcase.
  destruct (configuredUsers host input h !! np_Username input) as [token|].
  2: { exfalso. rewrite Hcase in Ht. cbn [snd] in Ht. apply app_inv_head in Ht. subst t.
       in_cases Hin; try discriminate Hin.
       apply (In_kind _ _ _ HtC) in Hin. discriminate Hin. }
  destruct (rpc_connect host _ (np_Username input) token) as [e|].
  { exfalso. rewrite Hcase in Ht. cbn [snd] in Ht. rewrite <- app_assoc in Ht.
    apply app_inv_head in Ht. subst t.
    in_cases Hin; try discriminate Hin.
    apply (In_kind _ _ _ HtC) in Hin. discriminate Hin. }
  destruct Hcase as (cancelled & mid & a & Hmid & Hcase).
  destruct (rpc_sendActivity host _ clientID (np_Username input) token a) as [e|].
  - exfalso. rewrite Hcase in Ht. cbn [snd] in Ht. rewrite <- !app_assoc in Ht.
    apply app_inv_head in Ht. subst t. cbn [app] in Hin.
    in_cases Hin; try discriminate Hin.
    + apply (In_kind _ _ _ HtC) in Hin. discriminate Hin.
    + apply (In_kind _ _ _ Hmid) in Hin. discriminate Hin.
  - destruct Hcase as (handle' & err' & Hcase).
    rewrite Hcase in Ht. cbn [snd] in Ht. rewrite <- !app_assoc in Ht.
    apply app_inv_head in Ht. subst t. cbn [app] in Hin.
    destruct err'; cbn [scheduleFailureLog] in Hin;
      in_cases Hin; try discriminate Hin;
      try (apply (In_kind _ _ _ HtC) in Hin; discriminate Hin);
      try (apply (In_kind _ _ _ Hmid) in Hin; discriminate Hin);
      injection Hin; auto.
Qed.

(** X23.  The callback that [NowPlaying] schedules comes back to the right
    user: when [OnCallback] is called with the schedule id and the payload
    of a scheduling call made by [NowPlaying] for a user, it calls the clear
    handler for exactly that username, whatever the username is, makes no
    other call, and returns the error of the handler as it is. *)
Theorem OnCallback_clears_the_scheduled_user (host : Host) (input : NowPlayingRequest)
    (h t : History) (delay : Z) (payload id handle : string) (err : option error)
    (handlers : CallbackHandlers) (recurring : bool) (hc : list CallbackEvent) :
  snd (NowPlaying host input h) = (h ++ t)%list ->
  In (EvScheduleOneTime delay payload id handle err) t ->
  let request := MkCallbackRequest id payload recurring in
  let answer :=
    rpc_handleClearActivityCallback handlers (hc ++ [callbackLog request])%list
      (np_Username input) in
  OnCallback handlers request hc
  = (answer,
     (hc ++ [callbackLog request; CbClearActivity (np_Username input) answer])%list).
Proof.
  intros Ht Hin.
  destruct (NowPlaying_schedule_events host input h t delay payload id handle err Ht Hin)
    as (-> & -> & _).
  cbv zeta. unfold OnCallback. cbn [cb_Payload cb_ScheduleID cb_IsRecurring].
  change (String.eqb payloadClearActivity payloadHeartbeat) with false.
  rewrite String.eqb_refl. cbv iota zeta.
  unfold clearScheduleID. rewrite TrimSuffix_app, <- app_assoc. reflexivity.
Qed.

Lemma OnCallback_clears_the_scheduled_user_witness :
  OnCallback quietHandlers (MkCallbackRequest "alice-clear" payloadClearActivity false) []
  = (None,
     [callbackLog (MkCallbackRequest "alice-clear" payloadClearActivity false);
      CbClearActivity "alice" None]).
Proof.
  apply (OnCallback_clears_the_scheduled_user (tableHost onlyMetadata) (aliceListens 200 30) []
           (snd (NowPlaying (tableHost onlyMetadata) (aliceListens 200 30) []))
           175 payloadClearActivity "alice-clear" "alice-clear" None quietHandlers false []).
  - reflexivity.
  - vm_compute. repeat first [left; reflexivity | right].
Defined.

(** X24.  [OnCallback] calls at most one handler and returns exactly what
    that handler returns.  The heartbeat tag passes the schedule id to the
    heartbeat handler unchanged, also when the id ends in [-clear]; the
    clear tag passes the id without one trailing [-clear], and an id that
    does not end in [-clear] unchanged; any other payload calls no handler,
    logs a warning and is not an error. *)
Theorem OnCallback_dispatch (handlers : CallbackHandlers) (input : SchedulerCallbackRequest)
    (h : list CallbackEvent) :
  let h1 := (h ++ [callbackLog input])%list in
  (cb_Payload input = payloadHeartbeat ->
   OnCallback handlers input h
   = (rpc_handleHeartbeatCallback handlers h1 (cb_ScheduleID input),
      (h1 ++ [CbHeartbeat (cb_ScheduleID input)
                (rpc_handleHeartbeatCallback handlers h1 (cb_ScheduleID input))])%list))
  /\ (cb_Payload input = payloadClearActivity ->
      exists username,
        OnCallback handlers input h
        = (rpc_handleClearActivityCallback handlers h1 username,
           (h1 ++ [CbClearActivity username
                     (rpc_handleClearActivityCallback handlers h1 username)])%list)
        /\ (HasSuffix (cb_ScheduleID input) "-clear" = true ->
            cb_ScheduleID input = username ++ "-clear")
        /\ (HasSuffix (cb_ScheduleID input) "-clear" = false ->
            username = cb_ScheduleID input))
  /\ (cb_Payload input <> payloadHeartbeat ->
      cb_Payload input <> payloadClearActivity ->
      fst (OnCallback handlers input h) = None
      /\ List.filter isHandlerCall (snd (OnCallback handlers input h))
         = List.filter isHandlerCall h).
Proof.
  cbv zeta. unfold OnCallback. fold (callbackLog input). cbv zeta.
  split; [|split].
  - intros ->. reflexivity.
  - intros Hp. rewrite Hp.
    change (String.eqb payloadClearActivity payloadHeartbeat) with false.
    rewrite String.eqb_refl. cbv iota.
    eexists. split; [reflexivity|]. unfold TrimSuffix. split; intros Hs; rewrite Hs.
    + unfold HasSuffix in Hs. apply andb_true_iff in Hs as [Hlen Hs].
      apply String.eqb_eq in Hs.
      rewrite <- (slice_to_from (String.length (cb_ScheduleID input) - String.length "-clear")
                    (cb_ScheduleID input)) at 1.
      now rewrite Hs.
    + reflexivity.
  - intros Hh Hc. apply String.eqb_neq in Hh, Hc. rewrite Hh, Hc. cbn [fst snd].
    split; [reflexivity|]. rewrite <- app_assoc, List.filter_app. cbn.
    now rewrite app_nil_r.
Qed.

Lemma OnCallback_dispatch_witness :
  OnCallback quietHandlers (MkCallbackRequest "bob-clear" payloadHeartbeat true) []
  = (None,
     [callbackLog (MkCallbackRequest "bob-clear" payloadHeartbeat true);
      CbHeartbeat "bob-clear" None]).
Proof.
  apply (proj1 (OnCallback_dispatch quietHandlers
                  (MkCallbackRequest "bob-clear" payloadHeartbeat true) [])).
  reflexivity.
Defined.

(** ** The scheduler, over whole runs *)

Lemma no_scheduler_touches (id : string) (l : list Event) :
  forallb notScheduler l = true -> forallb (touchesOnly id) l = true.
Proof.
  rewrite !forallb_forall. intros H e He. specialize (H e He).
  destruct e; try reflexivity; discriminate H.
Qed.

Lemma pending_frame (x : string) (t : list Event) :
  forallb (touchesOnly x) t = true ->
  forall registered id, id <> x -> id ∈ pending registered t <-> id ∈ registered.
Proof.
  induction t as [|e t IH]; intros Ht registered id Hid; [reflexivity|].
  cbn [forallb] in Ht. apply andb_true_iff in Ht as [He Ht].
  change (pending registered (e :: t)) with (pending (schedulerStep registered e) t).
  rewrite (IH Ht _ id Hid).
  destruct e as [| | | | | | | | | i [err|] | d p i hd [err|]]; cbn [schedulerStep];
    try reflexivity; cbn [touchesOnly] in He; apply String.eqb_eq in He; subst i.
  - rewrite elem_of_difference, elem_of_singleton. tauto.
  - rewrite elem_of_union, elem_of_singleton. tauto.
Qed.

(** X25.  A call of [NowPlaying] touches no schedule but the clear schedule
    of its own user: whatever the outcome, every cancel and every scheduling
    call of the run is keyed [<username>-clear], so, for a scheduler that
    keeps its contract, every other schedule is registered after the call
    exactly when it was registered before. *)
Theorem NowPlaying_scheduler_frame (host : Host) (input : NowPlayingRequest)
    (h t : History) :
  snd (NowPlaying host input h) = (h ++ t)%list ->
  forallb (touchesOnly (clearScheduleID (np_Username input))) t = true
  /\ forall registered id,
       id <> clearScheduleID (np_Username input) ->
       id ∈ pending registered t <-> id ∈ registered.
Proof.
  intros Ht.
  assert (Hall : forallb (touchesOnly (clearScheduleID (np_Username input))) t = true).
  { destruct (NowPlaying_cases host input h) as (clientID & tC & HtC & Hcase).
    cbv zeta in Hcase.
    pose proof (no_scheduler_touches (clearScheduleID (np_Username input)) tC
                  (quiet_no_scheduler _
                     (proj2 (forallb_forall _ _)
                        (fun e He => config_event_quiet e
                                       (proj1 (forallb_forall _ _) HtC e He))))) as HqC.
    destruct (configuredUsers host input h !! np_Username input) as [token|].
    2: { rewrite Hcase in Ht. cbn [snd] in Ht. apply app_inv_head in Ht. subst t.
         cbn [forallb]. exact HqC. }
    destruct (rpc_connect host _ (np_Username input) token) as [e|].
    { rewrite Hcase in Ht. cbn [snd] in Ht. rewrite <- app_assoc in Ht.
      apply app_inv_head in Ht. subst t. cbn [app forallb].
      rewrite forallb_app, HqC. reflexivity. }
    destruct Hcase as (cancelled & mid & a & Hmid & Hcase).
    pose proof (no_scheduler_touches (clearScheduleID (np_Username input)) mid
                  (quiet_no_scheduler _ Hmid)) as Hqm.
    destruct (rpc_sendActivity host _ clientID (np_Username input) token a) as [e|].
    - rewrite Hcase in Ht. cbn [snd] in Ht. rewrite <- !app_assoc in Ht.
      apply app_inv_head in Ht. subst t. cbn [app forallb].
      rewrite forallb_app, HqC. cbn [forallb touchesOnly andb].
      rewrite String.eqb_refl, forallb_app, Hqm. reflexivity.
    - destruct Hcase as (handle & err & Hcase).
      rewrite Hcase in Ht. cbn [snd] in Ht. rewrite <- !app_assoc in Ht.
      apply app_inv_head in Ht. subst t. cbn [app forallb].
      rewrite forallb_app, HqC. cbn [forallb touchesOnly andb].
      rewrite String.eqb_refl, forallb_app, Hqm. cbn [forallb touchesOnly andb].
      rewrite String.eqb_refl. now destruct err. }
  split; [exact Hall|]. intros registered id Hid.
  exact (pending_frame (clearScheduleID (np_Username input)) t Hall registered id Hid).
Qed.

Lemma NowPlaying_scheduler_frame_witness :
  "bob-clear" ∈ pending {[ "bob-clear" ]}
                  (snd (NowPlaying (tableHost onlyMetadata) (aliceListens 200 30) [])).
Proof.
  apply (proj2 (NowPlaying_scheduler_frame (tableHost onlyMetadata) (aliceListens 200 30) []
                  (snd (NowPlaying (tableHost onlyMetadata) (aliceListens 200 30) []))
                  eq_refl)).
  - discriminate.
  - now apply elem_of_singleton.
Defined.

(** X26.  When the activity was sent and the scheduling call of the run
    succeeded, the clear callback of the user is registered when
    [NowPlaying] returns, for a scheduler that keeps its contract: the
    registered schedules are those from before the call together with
    [<username>-clear], whether or not the cancel of the old one was carried
    out. *)
Theorem NowPlaying_registers_clear (host : Host) (input : NowPlayingRequest)
    (h t : History) (delay : Z) (payload id handle : string) :
  snd (NowPlaying host input h) = (h ++ t)%list ->
  sentWith None t ->
  In (EvScheduleOneTime delay payload id handle None) t ->
  forall registered,
    pending registered t = registered ∪ {[ clearScheduleID (np_Username input) ]}.
Proof.
  intros Ht Hsent Hin registered.
  destruct (NowPlaying_sent host input h t None Ht Hsent)
    as (body & Hshape & handle' & err & Hrun).
  rewrite Hrun in Ht. cbn [snd] in Ht. apply app_inv_head in Ht. subst t.
  destruct Hshape as (pre & cancelled & mid & clientID & token & a & -> & Hpre & Hmid).
  assert (err = None) as ->.
  { destruct err as [e|]; [exfalso|reflexivity]. cbn [scheduleFailureLog] in Hin.
    in_cases Hin; try discriminate Hin;
      try (apply (In_kind _ _ _ Hpre) in Hin; discriminate Hin);
      try (apply (In_kind _ _ _ Hmid) in Hin; discriminate Hin). }
  cbn [scheduleFailureLog].
  rewrite pending_app, pending_app, (pending_no_scheduler _ pre Hpre).
  change (pending registered
            (EvCancelSchedule (clearScheduleID (np_Username input)) cancelled
               :: mid ++ [EvSendActivity clientID (np_Username input) token a None]))
    with (pending (schedulerStep registered
                     (EvCancelSchedule (clearScheduleID (np_Username input)) cancelled))
            (mid ++ [EvSendActivity clientID (np_Username input) token a None])).
  rewrite pending_app, (pending_no_scheduler _ mid (quiet_no_scheduler _ Hmid)).
  cbn [pending fold_left schedulerStep].
  apply set_eq. intros x.
  destruct cancelled;
    rewrite ?elem_of_union, ?elem_of_difference, ?elem_of_singleton;
    destruct (decide (x = clearScheduleID (np_Username input))); tauto.
Qed.

Lemma NowPlaying_registers_clear_witness :
  pending ∅ (snd (NowPlaying (tableHost onlyMetadata) (aliceListens 200 30) []))
  = ∅ ∪ {[ "alice-clear" ]}.
Proof.
  apply (NowPlaying_registers_clear (tableHost onlyMetadata) (aliceListens 200 30) []
           (snd (NowPlaying (tableHost onlyMetadata) (aliceListens 200 30) []))
           175 payloadClearActivity "alice-clear" "alice-clear").
  - reflexivity.
  - eexists _, _, _, _. vm_compute. repeat first [left; reflexivity | right].
  - vm_compute. repeat first [left; reflexivity | right].
Defined.

(** ** Authorization and the presence update agree *)

Lemma getConfig_stable (host : Host) (h h' : History) :
  stableConfig host -> fst (getConfig host h) = fst (getConfig host h').
Proof.
  intros Hs. unfold getConfig. rewrite !bind_run, !GetConfig_run. cbn [fst snd].
  rewrite (Hs h h' clientIDKey).
  destruct (pdk_GetConfig host h' clientIDKey) as [clientID ok]. cbn [fst snd].
  destruct (negb ok || String.eqb clientID ""); [reflexivity|].
  rewrite !bind_run, !GetConfig_run. cbn [fst snd].
  rewrite (Hs (h ++ [EvGetConfig clientIDKey clientID ok])%list
              (h' ++ [EvGetConfig clientIDKey clientID ok])%list usersKey).
  destruct (pdk_GetConfig host _ usersKey) as [usersJSON ok']. cbn [fst snd].
  destruct (negb ok' || String.eqb usersJSON ""); [reflexivity|].
  destruct (unmarshalUsers usersJSON) as [userTokens|]; [|reflexivity].
  destruct (length userTokens =? 0)%nat; [reflexivity|].
  destruct (size (buildUsers userTokens) =? 0)%nat; reflexivity.
Qed.

(** X27.  [IsAuthorized] and [NowPlaying] agree: when the configuration
    does not change between the two calls, [IsAuthorized] answers [true] for
    a username exactly when [NowPlaying] for that username does not return
    the not-authorized error, whatever else the gateway, the cache and the
    scheduler do. *)
Theorem IsAuthorized_agrees_with_NowPlaying (host : Host) (request : IsAuthorizedRequest)
    (input : NowPlayingRequest) (h h' : History) :
  stableConfig host ->
  ia_Username request = np_Username input ->
  fst (fst (IsAuthorized host request h))
  = negb (isNotAuthorized (fst (NowPlaying host input h'))).
Proof.
  intros Hs Hu. rewrite IsAuthorized_run. cbv zeta. cbn [fst].
  rewrite Hu, (getConfig_stable host h (h' ++ [presenceLog input])%list Hs).
  fold (configuredUsers host input h').
  destruct (NowPlaying_cases host input h') as (clientID & tC & _ & Hcase).
  cbv zeta in Hcase.
  destruct (configuredUsers host input h' !! np_Username input) as [token|].
  2: { rewrite Hcase. reflexivity. }
  destruct (rpc_connect host _ (np_Username input) token) as [e|].
  { rewrite Hcase. reflexivity. }
  destruct Hcase as (cancelled & mid & a & _ & Hcase).
  destruct (rpc_sendActivity host _ clientID (np_Username input) token a) as [e|].
  - rewrite Hcase. reflexivity.
  - destruct Hcase as (handle & err & ->). reflexivity.
Qed.

Lemma IsAuthorized_agrees_with_NowPlaying_witness :
  fst (fst (IsAuthorized (tableHost onlyMetadata) (MkIsAuthorizedRequest "bob") []))
  = negb (isNotAuthorized (fst (NowPlaying (tableHost onlyMetadata) bobListens []))).
Proof.
  apply (IsAuthorized_agrees_with_NowPlaying (tableHost onlyMetadata)
           (MkIsAuthorizedRequest "bob") bobListens [] []).
  - intros h h' key. reflexivity.
  - reflexivity.
Defined.
